(** * MediaRise Robot Console: the voice-session client [robot_client.py]

    A shallow embedding of the WebSocket demo client: the handshake, the
    capture-and-send task [send_audio], the receive-and-render task
    [receive_messages] and the teardown of [robot_client], followed by the
    properties of the specification that concern them.

    Conventions of the embedding.
    - Python [bytes] are [list byte]; Python [str] is [string], the bytes of
      the text. Where the result of [str.lower] is compared with ["mp3"] or
      ["opus"] it is computed on the ASCII letters, which decides these
      comparisons (no other character lowers to a letter of the two words);
      where it names a file it is the environment's [unicode_lower].
    - A value produced by [json.loads] is a [json]; a Python dict is a [gmap]
      from its keys.
    - Time passes in integer milliseconds; what [time.monotonic()] and
      [time.time()] return is the binary64 number nearest to the time in
      seconds, and the client's arithmetic on these readings is binary64
      arithmetic.
    - [open(name, "wb")] is the environment's [open_wb]: it raises, or
      resolves [name] to a file of the working directory. The two fixed
      output names are taken to open and to denote themselves.
    - Everything the client does to the outside (console, channel, files,
      codec, audio device, the stop event) is an [event] appended to the
      [trace] of the [world], in program order.
    - The libraries and devices the client calls are the fields of the class
      [Collaborators]; what arrives from the network and from the microphone
      is a script passed to the task that consumes it. *)

From Stdlib Require Import ZArith NArith Strings.String Strings.Ascii Strings.Byte Lia.
From Stdlib Require Import Floats.
From stdpp Require Import base option gmap strings list.

Set Warnings "-register-all".
Open Scope Z_scope.

Abbreviation bytes := (list byte).

#[global] Instance byte_eq_decision : EqDecision byte := Byte.byte_eq_dec.

(** ** Python values and primitives *)

(** What [json.loads] returns: [None], [bool], [int], [float] (kept as its
    literal), [str], [list], [dict]. *)
Inductive json :=
  | JNull
  | JBool (b : bool)
  | JInt (z : Z)
  | JFloat (literal : string)
  | JStr (s : string)
  | JArr (items : list json)
  | JObj (fields : gmap string json).

(** The exceptions that occur in the client; all of them are subclasses of
    [Exception], so [except Exception] catches each one. *)
Inductive exn :=
  | ConnectionClosed                 (* websockets.ConnectionClosed *)
  | AttributeError (attr : string)   (* value without the attribute [attr] *)
  | IndexError
  | KeyError (key : string)
  | JSONDecodeError
  | OpusError (code : Z)             (* opuslib *)
  | PortAudioError (code : Z)        (* sounddevice *)
  | OSError (errno : Z).

Definition is_connection_closed (e : exn) : bool :=
  match e with ConnectionClosed => true | _ => false end.

(** A message on the channel: [websocket.recv()] yields [str] or [bytes]. *)
Inductive ws_message :=
  | Text (payload : string)
  | Binary (payload : bytes).

(** The outcome of a call that may raise. *)
Abbreviation outcome A := (exn + A)%type.

(** [str.lower], on the ASCII letters: used where the result is compared
    with an ASCII literal. *)
Definition lower_ascii (c : ascii) : ascii :=
  let n := nat_of_ascii c in
  if (Nat.leb 65 n && Nat.leb n 90)%bool then ascii_of_nat (n + 32) else c.

Fixpoint lower (s : string) : string :=
  match s with
  | EmptyString => EmptyString
  | String c r => String (lower_ascii c) (lower r)
  end.

(** [bytes.hex]: two lowercase hexadecimal digits per byte. *)
Definition hex_digit (n : N) : ascii :=
  if (n <? 10)%N then ascii_of_N (48 + n) else ascii_of_N (87 + n).

Fixpoint hex (b : bytes) : string :=
  match b with
  | [] => EmptyString
  | x :: r =>
      let n := Byte.to_N x in
      String (hex_digit (n / 16)) (String (hex_digit (n mod 16)) (hex r))
  end.

(** [b"..."] literals. *)
Definition b_ID3 : bytes := list_byte_of_string "ID3".
Definition b_OggS : bytes := list_byte_of_string "OggS".

(** [message[i]] on bytes: the integer value of the byte, [IndexError] out of
    range. *)
Definition getitem (message : bytes) (i : nat) : outcome N :=
  match message !! i with
  | Some b => inr (Byte.to_N b)
  | None => inl IndexError
  end.

(** [value.lower()] in a comparison with an ASCII literal: only a [str] has
    the method. *)
Definition str_lower (v : json) : outcome string :=
  match v with
  | JStr s => inr (lower s)
  | _ => inl (AttributeError "lower")
  end.

(** [d.get(key, default)]; a value that is not a dict has no [get]. An absent
    key and a key bound to [None] both read as [JNull] when no default is
    given. *)
Definition dict_get_default (d : json) (key : string) (dflt : json) : outcome json :=
  match d with
  | JObj fields => inr (default dflt (fields !! key))
  | _ => inl (AttributeError "get")
  end.

Definition dict_get (d : json) (key : string) : outcome json :=
  dict_get_default d key JNull.

(** [d[key]] on a dict. *)
Definition dict_getitem (fields : gmap string json) (key : string) : outcome json :=
  match fields !! key with
  | Some v => inr v
  | None => inl (KeyError key)
  end.

(** [value == "literal"] for a value of any type. *)
Definition eq_str (v : json) (literal : string) : bool :=
  match v with
  | JStr s => String.eqb s literal
  | _ => false
  end.

(** ** Console output

    One constructor per [print] of the client, carrying the values the
    f-string interpolates. The comment gives the source line. *)
Inductive line :=
  (* robot_client *)
  | SentHello (audio_format : json)                     (* 109 *)
  | UnexpectedResponseType (type : json)                (* 120 *)
  | SessionId (session_id : json)                       (* 123 *)
  | ServerWillSend (server_audio_format : json)         (* 128 *)
  | NoResponseWithin300s                                (* 381 *)
  | ConnectionClosedDone                                (* 396 *)
  (* send_audio *)
  | InputOverflowed                                     (* 168 *)
  | ClosedDuringRecording                               (* 182 *)
  | SendAudioError (exc : exn)                          (* 185, 212 *)
  | SendingFrames (count : nat) (total_ms : nat)        (* 191 *)
  | ClosedDuringSending                                 (* 208 *)
  | FinishedSending                                     (* 216 *)
  (* receive_messages, binary *)
  | ReceivedAudio (length : nat)                        (* 235 *)
  | DetectedID3                                         (* 251 *)
  | DetectedFrameSync                                   (* 255 *)
  | DetectedOgg                                         (* 262 *)
  | FormatMismatch (detected : string) (negotiated : json)  (* 266 *)
  | Tip (detected : string)                             (* 267 *)
  | SavedMP3 (filename : string)                        (* 280 *)
  | HowToPlayMP3                                        (* 281 *)
  | PlayingDecodedOpus                                  (* 291 *)
  | ErrorDecodingOpus (e : exn)                         (* 294 *)
  | AudioLength (length : nat)                          (* 295 *)
  | First10Bytes (hexadecimal : string)                 (* 296 *)
  | SavedUnknown                                        (* 302 *)
  | CouldNotDetermine (negotiated : json)               (* 305 *)
  | DecodedAsOpus                                       (* 312 *)
  | ErrorDecodingAsOpus (e : exn)                       (* 314 *)
  | SavedForAnalysis (filename : string)                (* 319 *)
  | SavedAs (filename : string)                         (* 325 *)
  | HowToPlay (filename : string)                       (* 326 *)
  (* receive_messages, text *)
  | Transcription (text : json)                         (* 337 *)
  | LLMResponse (text : json)                           (* 342 *)
  | HelloAgain (data : json)                            (* 346 *)
  | SystemMessage (command : json)                      (* 351 *)
  | UnknownMessageType (msg_type : json)                (* 355 *)
  | FullMessage (data : json)                           (* 356 *)
  | ClosedDuringReceive                                 (* 359 *)
  | ReceiveError (exc : exn).                           (* 362 *)

(** ** Effects *)
Inductive event :=
  | Say (l : line)                          (* print(...) *)
  | WsSend (m : ws_message)                 (* await websocket.send(m) *)
  | WsClose                                 (* await websocket.close() *)
  | WsContextExit                           (* leaving [async with websockets.connect(uri)] *)
  | FileWrite (path : string) (data : bytes)  (* f.write(data) on the file [path] *)
  | OpusEncode (pcm : bytes)                (* encoder.encode(pcm, frame_size) *)
  | OpusDecode (packet : bytes)             (* decoder.decode(packet, frame_size) *)
  | OutputWrite (pcm : bytes)               (* output_stream.write(pcm) *)
  | OutputStop                              (* output_stream.stop() *)
  | OutputClose                             (* output_stream.close() *)
  | StopSet                                 (* stop.set() *)
  | GatherRecv                              (* await asyncio.gather(recv_task, return_exceptions=True) *)
  | CancelRecv.                             (* wait_for cancels recv_task at the timeout *)

(** Where the receive task stands when the send task or the main coroutine
    holds the event loop. *)
Inductive task_state :=
  | Fresh       (* created, not yet run *)
  | Waiting     (* suspended in [await websocket.recv()] *)
  | Finished    (* returned *)
  | Cancelled.  (* cancelled by [asyncio.wait_for] *)

(** The libraries and devices at the boundary of the client. The codecs are
    stateful; a call returns the new state with its outcome. *)
Class Collaborators := {
  encoder_state : Type;
  decoder_state : Type;
  json_dumps : json -> string;
  json_loads : string -> outcome json;
  opus_encode : encoder_state -> bytes -> Z -> outcome bytes * encoder_state;
  opus_decode : decoder_state -> bytes -> Z -> outcome bytes * decoder_state;
  mic_open : option exn;                (* the exception sd.RawInputStream(...) raises, if any *)
  output_write : bytes -> option exn;   (* ... output_stream.write(pcm) *)
  ws_close : option exn;                (* ... websocket.close() *)
  output_stop : option exn;             (* ... output_stream.stop() *)
  output_close : option exn;            (* ... output_stream.close() *)
  wall_epoch : Z;                       (* the wall clock minus the monotonic clock, in ms *)
  unicode_lower : string -> string;     (* str.lower(), on any text *)
  (* with open(name, "wb") as f: f.write(...): the exception raised, or the
     file that [name] denotes once the system has resolved it; how a name
     resolves is taken not to change during a session *)
  open_wb : string -> outcome string;
  (* the working directory takes the two fixed output files *)
  open_wb_mp3 : open_wb "response.mp3" = inr "response.mp3";
  open_wb_unknown : open_wb "response_unknown.bin" = inr "response_unknown.bin";
}.

Declare Scope client_scope.
Delimit Scope client_scope with client.

Section Client.
Context `{Collaborators}.
Local Open Scope client_scope.

Record world := World {
  stop : bool;                    (* the asyncio.Event [stop] *)
  files : gmap string bytes;      (* the working directory *)
  trace : list event;             (* what has been done, oldest first *)
  encoder : encoder_state;
  decoder : decoder_state;
  clock : Z;                      (* the monotonic clock, in ms *)
  recv_task : task_state;
}.

Definition with_stop (b : bool) (w : world) : world :=
  World b (files w) (trace w) (encoder w) (decoder w) (clock w) (recv_task w).
Definition with_files (f : gmap string bytes) (w : world) : world :=
  World (stop w) f (trace w) (encoder w) (decoder w) (clock w) (recv_task w).
Definition with_trace (t : list event) (w : world) : world :=
  World (stop w) (files w) t (encoder w) (decoder w) (clock w) (recv_task w).
Definition with_encoder (e : encoder_state) (w : world) : world :=
  World (stop w) (files w) (trace w) e (decoder w) (clock w) (recv_task w).
Definition with_decoder (d : decoder_state) (w : world) : world :=
  World (stop w) (files w) (trace w) (encoder w) d (clock w) (recv_task w).
Definition with_clock (c : Z) (w : world) : world :=
  World (stop w) (files w) (trace w) (encoder w) (decoder w) c (recv_task w).
Definition with_recv_task (s : task_state) (w : world) : world :=
  World (stop w) (files w) (trace w) (encoder w) (decoder w) (clock w) s.

(** ** The monad of the client: state, and exceptions *)
Definition M (A : Type) : Type := world -> outcome A * world.

Definition ret {A} (a : A) : M A := fun w => (inr a, w).

Definition bind {A B} (m : M A) (f : A -> M B) : M B := fun w =>
  match m w with
  | (inr a, w') => f a w'
  | (inl e, w') => (inl e, w')
  end.

Notation "x ← y ; z" := (bind y (fun x => z))
  (at level 20, y at level 100, z at level 200, only parsing) : client_scope.
Notation "x ;; z" := (bind x (fun _ => z))
  (at level 100, z at level 200, only parsing, right associativity) : client_scope.

Definition raise {A} (e : exn) : M A := fun w => (inl e, w).

(** [try: body  except Exception as e: handler e]. *)
Definition try_except {A} (body : M A) (handler : exn -> M A) : M A := fun w =>
  match body w with
  | (inr a, w') => (inr a, w')
  | (inl e, w') => handler e w'
  end.

Definition lift {A} (r : outcome A) : M A := fun w => (r, w).

Definition failing (r : option exn) : M unit := fun w =>
  match r with Some e => (inl e, w) | None => (inr tt, w) end.

Definition emit (e : event) : M unit := fun w =>
  (inr tt, with_trace (trace w ++ [e]) w).

Definition print (l : line) : M unit := emit (Say l).

Definition stop_set : M unit := fun w =>
  (inr tt, with_stop true (with_trace (trace w ++ [StopSet]) w)).

(** The file [path] is created or truncated, then holds [data]. *)
Definition write_file (path : string) (data : bytes) : M unit := fun w =>
  (inr tt, with_files (<[path := data]> (files w)) (with_trace (trace w ++ [FileWrite path data]) w)).

(** [with open(name, "wb") as f: f.write(data)]: [open] raises, or resolves
    [name] to a file, which then holds [data]. *)
Definition open_write (name : string) (data : bytes) : M unit :=
  path ← lift (open_wb name);
  write_file path data.

(** [value.lower()] where the result names a file (line 322). *)
Definition str_lower_unicode (v : json) : outcome string :=
  match v with
  | JStr s => inr (unicode_lower s)
  | _ => inl (AttributeError "lower")
  end.

Definition frame_size : Z := 48000 / 50.
Definition record_seconds : Z := 5.

Definition encode (pcm : bytes) : M bytes := fun w =>
  let '(r, st) := opus_encode (encoder w) pcm frame_size in
  (r, with_encoder st (with_trace (trace w ++ [OpusEncode pcm]) w)).

Definition decode (packet : bytes) : M bytes := fun w =>
  let '(r, st) := opus_decode (decoder w) packet frame_size in
  (r, with_decoder st (with_trace (trace w ++ [OpusDecode packet]) w)).

Definition play (pcm : bytes) : M unit :=
  emit (OutputWrite pcm);; failing (output_write pcm).

(** ** The receive-and-render task: [receive_messages] *)

(** Lines 252: [len(message) >= 2 and message[0] == 0xFF and
    (message[1] & 0xE0) == 0xE0], evaluated left to right. *)
Definition frame_sync (message : bytes) : M bool :=
  if negb (2 <=? length message)%nat then ret false else
  b0 ← lift (getitem message 0);
  if negb (b0 =? 0xFF)%N then ret false else
  b1 ← lift (getitem message 1);
  ret (N.land b1 0xE0 =? 0xE0)%N.

(** Lines 244-262: the format the magic bytes show, [None] when they show
    none. *)
Definition detect_format (message : bytes) : M (option string) :=
  if (3 <=? length message)%nat then
    if bool_decide (take 3 message = b_ID3) then
      print DetectedID3;;
      ret (Some "mp3")
    else
      sync ← frame_sync message;
      if sync then
        print DetectedFrameSync;;
        ret (Some "mp3")
      else if (4 <=? length message)%nat then
        if bool_decide (take 4 message = b_OggS) then
          print DetectedOgg;;
          ret (Some "opus")
        else ret None
      else ret None
  else ret None.

(** Lines 239-270: the flags [(is_mp3, is_opus)] that decide how the chunk is
    handled, from the negotiated encoding and from the magic bytes, which win
    when they show something else. *)
Definition classify (server_audio_format : json) (message : bytes) : M (bool * bool) :=
  negotiated ← lift (str_lower server_audio_format);
  let is_mp3 := String.eqb negotiated "mp3" in
  negotiated ← lift (str_lower server_audio_format);
  let is_opus := String.eqb negotiated "opus" in
  detected_format ← detect_format message;
  match detected_format with
  | Some detected =>
      negotiated ← lift (str_lower server_audio_format);
      if negb (String.eqb detected negotiated) then
        print (FormatMismatch detected server_audio_format);;
        print (Tip detected);;
        ret (String.eqb detected "mp3", String.eqb detected "opus")
      else ret (is_mp3, is_opus)
  | None => ret (is_mp3, is_opus)
  end.

(** Lines 273-326: what is done with the chunk. *)
Definition render (server_audio_format : json) (message : bytes)
    (is_mp3 is_opus : bool) : M unit :=
  if is_mp3 then
    let filename := "response.mp3" in
    open_write filename message;;
    print (SavedMP3 filename);;
    print HowToPlayMP3
  else if is_opus then
    try_except
      (pcm ← decode message;
       play pcm;;
       print PlayingDecodedOpus)
      (λ e,
       print (ErrorDecodingOpus e);;
       print (AudioLength (length message));;
       print (First10Bytes (hex (take 10 message)));;
       open_write "response_unknown.bin" message;;
       print SavedUnknown)
  else
    print (CouldNotDetermine server_audio_format);;
    negotiated ← lift (str_lower server_audio_format);
    if String.eqb negotiated "opus" then
      try_except
        (pcm ← decode message;
         play pcm;;
         print DecodedAsOpus)
        (λ e,
         print (ErrorDecodingAsOpus e);;
         let filename := "response_opus_error.bin" in
         open_write filename message;;
         print (SavedForAnalysis filename))
    else
      negotiated ← lift (str_lower_unicode server_audio_format);
      let filename := "response." +:+ negotiated in
      open_write filename message;;
      print (SavedAs filename);;
      print (HowToPlay filename).

(** Lines 235-326: one binary message. *)
Definition handle_binary (server_audio_format : json) (message : bytes) : M unit :=
  print (ReceivedAudio (length message));;
  flags ← classify server_audio_format message;
  render server_audio_format message flags.1 flags.2.

(** Lines 331-356: one text message. *)
Definition handle_text (message : string) : M unit :=
  data ← lift (json_loads message);
  msg_type ← lift (dict_get data "type");
  if eq_str msg_type "stt" then
    text ← lift (dict_get_default data "text" (JStr ""));
    print (Transcription text)
  else if eq_str msg_type "llm" then
    text ← lift (dict_get_default data "text" (JStr ""));
    print (LLMResponse text)
  else if eq_str msg_type "hello" then
    print (HelloAgain data)
  else if eq_str msg_type "system" then
    command ← lift (dict_get_default data "command" (JStr ""));
    print (SystemMessage command)
  else
    print (UnknownMessageType msg_type);;
    print (FullMessage data).

(** Lines 229-356: the body of the [while] loop; [arrival] is what
    [await websocket.recv()] produces. *)
Definition receive_iteration (server_audio_format : json)
    (arrival : outcome ws_message) : M unit :=
  message ← lift arrival;
  match message with
  | Binary payload => handle_binary server_audio_format payload
  | Text payload => handle_text payload
  end.

(** Lines 358-363: the two [except] clauses around the loop. *)
Definition receive_except (e : exn) : M unit :=
  if is_connection_closed e then
    print ClosedDuringReceive;;
    stop_set
  else
    print (ReceiveError e);;
    stop_set.

(** The task suspended in [recv()] is handed the arrivals one by one: it
    runs the body on each, then tests [stop] at the loop head, and returns
    when the flag is set or an exception leaves the loop. With no arrival
    left it stays suspended. *)
Fixpoint deliver (server_audio_format : json)
    (arrivals : list (outcome ws_message)) (w : world) : world :=
  match arrivals with
  | [] => w
  | arrival :: rest =>
      match recv_task w with
      | Waiting =>
          match receive_iteration server_audio_format arrival w with
          | (inr _, w1) =>
              if stop w1 then with_recv_task Finished w1
              else deliver server_audio_format rest w1
          | (inl e, w1) =>
              with_recv_task Finished (receive_except e w1).2
          end
      | _ => w
      end
  end.

(** The first time the task runs it tests [stop] and suspends in [recv()]. *)
Definition start_recv (w : world) : world :=
  match recv_task w with
  | Fresh => with_recv_task (if stop w then Finished else Waiting) w
  | _ => w
  end.

(** One turn of the receive task on the event loop. *)
Definition receive_messages (server_audio_format : json)
    (arrivals : list (outcome ws_message)) (w : world) : world :=
  deliver server_audio_format arrivals (start_recv w).

(** ** The handshake (lines 88-128) *)

(** The Hello message; [audio_format] is the encoding requested for the
    responses (line 104). *)
Definition hello (audio_format : string) : gmap string json :=
  list_to_map [
    ("type", JStr "hello");
    ("version", JInt 3);
    ("transport", JStr "websocket");
    ("features", JObj (list_to_map [("aec", JBool true); ("mcp", JBool false)]));
    ("audio_params", JObj (list_to_map [
       ("format", JStr "opus");
       ("sample_rate", JInt 48000);
       ("channels", JInt 1);
       ("frame_duration", JInt 20)]));
    ("audio_format", JStr audio_format)
  ].

(** The value the source file requests. *)
Definition requested_audio_format : string := "mp3".

(** [await websocket.send(m)]; [failure] is the exception it raises, if any. *)
Definition ws_send (failure : option exn) (m : ws_message) : M unit :=
  match failure with
  | Some e => raise e
  | None => emit (WsSend m)
  end.

(** [json.loads] takes [str] and [bytes] alike. *)
Definition loads (m : ws_message) : outcome json :=
  match m with
  | Text s => json_loads s
  | Binary b => json_loads (string_of_list_byte b)
  end.

(** Lines 108-128. The result is [(session_id, server_audio_format)]. *)
Definition handshake (audio_format : string) (send_failure : option exn)
    (reply : outcome ws_message) : M (json * json) :=
  let hello := hello audio_format in
  ws_send send_failure (Text (json_dumps (JObj hello)));;
  requested ← lift (dict_getitem hello "audio_format");
  print (SentHello requested);;
  response ← lift reply;
  hello_response ← lift (loads response);
  type ← lift (dict_get hello_response "type");
  (if negb (eq_str type "hello") then
     type ← lift (dict_get hello_response "type");
     print (UnexpectedResponseType type)
   else ret tt);;
  session_id ← lift (dict_get hello_response "session_id");
  print (SessionId session_id);;
  fallback ← lift (dict_get_default (JObj hello) "audio_format" (JStr "opus"));
  server_audio_format ← lift (dict_get_default hello_response "audio_format" fallback);
  print (ServerWillSend server_audio_format);;
  ret (session_id, server_audio_format).

(** ** The capture-and-send task: [send_audio] *)

Definition advance (ms : Z) : M unit := fun w =>
  (inr tt, with_clock (clock w + ms) w).

(** The binary64 number of an integer (exact below 2^53). *)
Definition float_of_Z (z : Z) : float :=
  if z <? 0 then PrimFloat.opp (PrimFloat.of_uint63 (Uint63.of_Z (- z)))
  else PrimFloat.of_uint63 (Uint63.of_Z z).

(** The reading of a clock that stands at [ms] milliseconds: the binary64
    number nearest to [ms / 1000] seconds. *)
Definition seconds (ms : Z) : float := PrimFloat.div (float_of_Z ms) 1000%float.

(** [time.monotonic()] *)
Definition monotonic : M float := fun w => (inr (seconds (clock w)), w).

(** [time.time()] *)
Definition wall_time : M float := fun w => (inr (seconds (wall_epoch + clock w)), w).

(** Line 159, second conjunct: [(time.monotonic() - start_ts) < record_seconds]
    when the clock stands at [now] milliseconds. *)
Definition within_recording (start_ts : float) (now : Z) : bool :=
  PrimFloat.ltb (PrimFloat.sub (seconds now) start_ts) (float_of_Z record_seconds).

(** A suspension point of the send task: the receive task takes its turn on
    what has arrived. *)
Definition yield_to_recv (server_audio_format : json)
    (arrivals : list (outcome ws_message)) : M unit := fun w =>
  (inr tt, receive_messages server_audio_format arrivals w).

(** What the environment does during one iteration of the capture loop. *)
Record tick := Tick {
  mic_read : outcome (bytes * bool);     (* mic.read(frame_size): PCM and overflow flag *)
  read_ms : Z;                           (* how long the read blocked *)
  arrivals : list (outcome ws_message);  (* inbound messages handled at [asyncio.sleep(0)] *)
  yield_ms : Z;                          (* how long the send task stayed suspended *)
}.

(** Lines 164-178: the [try] body. The locals it assigns are returned. *)
Definition capture_body (server_audio_format : json) (t : tick)
    (frames : list bytes) (last_overflow_log : float) : M (list bytes * float) :=
  advance (read_ms t);;
  r ← lift (mic_read t);
  let '(pcm_bytes, overflowed) := r in
  now ← wall_time;
  last_overflow_log ←
    (if overflowed && PrimFloat.ltb 5%float (PrimFloat.sub now last_overflow_log) then
       print InputOverflowed;;
       wall_time
     else ret last_overflow_log);
  let pcm_raw := pcm_bytes in
  let frames := frames ++ [pcm_raw] in
  yield_to_recv server_audio_format (arrivals t);;
  advance (yield_ms t);;
  ret (frames, last_overflow_log).

(** Lines 180-186. *)
Definition capture_except (e : exn) : M unit :=
  if is_connection_closed e then
    print ClosedDuringRecording;;
    stop_set
  else
    print (SendAudioError e);;
    stop_set.

Definition capture_step (server_audio_format : json) (t : tick)
    (frames : list bytes) (last_overflow_log : float) (w : world)
    : (list bytes * float) * world :=
  match capture_body server_audio_format t frames last_overflow_log w with
  | (inr locals, w') => (locals, w')
  | (inl e, w') => ((frames, last_overflow_log), (capture_except e w').2)
  end.

(** Lines 159-186: the [while] loop. The script supplies one tick per
    iteration; [None] when the script ends before the loop does. *)
Fixpoint capture (server_audio_format : json) (start_ts : float) (script : list tick)
    (frames : list bytes) (last_overflow_log : float) (w : world)
    : option (list bytes * world) :=
  if negb (stop w) && within_recording start_ts (clock w) then
    match script with
    | [] => None
    | t :: script =>
        let '((frames, last_overflow_log), w) :=
          capture_step server_audio_format t frames last_overflow_log w in
        capture server_audio_format start_ts script frames last_overflow_log w
    end
  else Some (frames, w).

(** What the environment does while one encoded frame is sent. *)
Record send_step := SendStep {
  send_failure : option exn;                        (* raised by websocket.send *)
  arrivals_during_send : list (outcome ws_message); (* handled while send is suspended *)
}.

(** Lines 198-205: the [try] body of the [for] loop. *)
Definition transmit_body (server_audio_format : json) (s : send_step)
    (pcm_raw : bytes) : M unit :=
  opus_frame ← encode pcm_raw;
  ws_send (send_failure s) (Binary opus_frame);;
  yield_to_recv server_audio_format (arrivals_during_send s).

(** Lines 207-214, without the [break]. *)
Definition transmit_except (e : exn) : M unit :=
  if is_connection_closed e then
    print ClosedDuringSending;;
    stop_set
  else
    print (SendAudioError e);;
    stop_set.

(** Lines 194-214: the [for] loop; [steps i] is the environment during the
    [i]-th iteration. An exception ends the loop ([break]). *)
Fixpoint transmit (server_audio_format : json) (steps : nat -> send_step)
    (i : nat) (frames : list bytes) (w : world) : world :=
  match frames with
  | [] => w
  | pcm_raw :: rest =>
      match transmit_body server_audio_format (steps i) pcm_raw w with
      | (inr _, w') => transmit server_audio_format steps (S i) rest w'
      | (inl e, w') => (transmit_except e w').2
      end
  end.

(** Lines 146-216. [None] when the capture script is too short. *)
Definition send_audio (server_audio_format : json) (script : list tick)
    (steps : nat -> send_step) (w : world) : option (outcome unit * world) :=
  match mic_open with
  | Some e => Some (inl e, w)
  | None =>
      let start_ts := seconds (clock w) in
      match capture server_audio_format start_ts script [] 0%float w with
      | None => None
      | Some (frames, w) =>
          let w :=
            match frames with
            | [] => w
            | _ => (print (SendingFrames (length frames) (length frames * 20)) w).2
            end in
          let w := transmit server_audio_format steps 0 frames w in
          Some (print FinishedSending w)
      end
  end.

(** ** The end of the session (lines 375-396) *)

(** Lines 378-381: the receive task is awaited for 300 s. It gets the
    remaining arrivals; if it has not returned on them the wait times out and
    the task is cancelled. *)
Definition await_recv (server_audio_format : json)
    (arrivals : list (outcome ws_message)) : M unit := fun w =>
  let w := receive_messages server_audio_format arrivals w in
  match recv_task w with
  | Finished => (inr tt, w)
  | _ =>
      (advance 300000;;
       emit CancelRecv;;
       print NoResponseWithin300s) (with_recv_task Cancelled w)
  end.

(** Lines 382-396: the [finally] block. *)
Definition teardown : M unit :=
  stop_set;;
  emit WsClose;;
  failing ws_close;;
  emit GatherRecv;;
  emit OutputStop;;
  failing output_stop;;
  emit OutputClose;;
  failing output_close;;
  print ConnectionClosedDone.

(** Lines 108-396, inside [async with websockets.connect(uri) as websocket];
    leaving the block closes the connection whatever happened. When the send
    task ends with an exception (the input stream could not be opened), the
    receive task, created at line 372, takes its first turn on what has
    arrived before the exception is raised at line 375. *)
Definition robot_client (audio_format : string) (hello_failure : option exn)
    (reply : outcome ws_message) (script : list tick) (steps : nat -> send_step)
    (late_arrivals : list (outcome ws_message)) (w : world)
    : option (outcome unit * world) :=
  let leave (r : outcome unit * world) := (r.1, (emit WsContextExit r.2).2) in
  match handshake audio_format hello_failure reply w with
  | (inl e, w) => Some (leave (inl e, w))
  | (inr (session_id, server_audio_format), w) =>
      let w := with_recv_task Fresh (with_stop false w) in
      match send_audio server_audio_format script steps w with
      | None => None
      | Some (inl e, w) =>
          Some (leave (inl e, receive_messages server_audio_format late_arrivals w))
      | Some (inr _, w) =>
          Some (leave ((await_recv server_audio_format late_arrivals;; teardown) w))
      end
  end.

(** ** Observations on a world *)

(** The messages sent on the channel, oldest first. *)
Definition sent (w : world) : list ws_message :=
  omap (λ e, match e with WsSend m => Some m | _ => None end) (trace w).

(** The steps of the teardown, and the event by which each one shows in the
    trace. *)
Inductive teardown_step :=
  | SetFlag | CloseChannel | AwaitReceiveTask | StopOutput | ReleaseOutput.

Definition performs (s : teardown_step) (e : event) : bool :=
  match s, e with
  | SetFlag, StopSet => true
  | CloseChannel, WsClose => true
  | AwaitReceiveTask, GatherRecv => true
  | StopOutput, OutputStop => true
  | ReleaseOutput, OutputClose => true
  | _, _ => false
  end.

(** How often a step was executed in a stretch of trace. *)
Definition executions (s : teardown_step) (t : list event) : nat :=
  length (List.filter (performs s) t).

(** The world after the lines [ls] have been printed. *)
Definition says (w : world) (ls : list line) : world :=
  with_trace (trace w ++ (Say <$> ls)) w.

(** The packets of [frames] encoded one after the other from the encoder
    state [st], up to the first frame the encoder refuses. *)
Fixpoint encode_seq (st : encoder_state) (frames : list bytes) : list bytes :=
  match frames with
  | [] => []
  | pcm :: rest =>
      match opus_encode st pcm frame_size with
      | (inr packet, st') => packet :: encode_seq st' rest
      | (inl _, _) => []
      end
  end.

(** What the teardown does, by the outcome of its calls: the steps in
    order, up to and including the first one that raises. *)
Definition teardown_trace : list event :=
  [StopSet; WsClose] ++
  match ws_close with
  | Some _ => []
  | None =>
      [GatherRecv; OutputStop] ++
      match output_stop with
      | Some _ => []
      | None =>
          OutputClose ::
          match output_close with
          | Some _ => []
          | None => [Say ConnectionClosedDone]
          end
      end
  end.

(** The packets the [for] loop puts on the channel: those of the frames that
    come before the first one whose encoding or sending raises. Neither the
    stop flag nor what arrives meanwhile enters. *)
Fixpoint transmitted (steps : nat -> send_step) (i : nat) (st : encoder_state)
    (frames : list bytes) : list bytes :=
  match frames with
  | [] => []
  | pcm :: rest =>
      match opus_encode st pcm frame_size, send_failure (steps i) with
      | (inr packet, st'), None => packet :: transmitted steps (S i) st' rest
      | _, _ => []
      end
  end.

(** The PCM a tick delivers (nothing when the read raises). *)
Definition pcm_of (t : tick) : bytes :=
  match mic_read t with
  | inr (pcm, _) => pcm
  | inl _ => []
  end.

(** The format the magic bytes show: what [detect_format] returns (lines
    244-262). *)
Definition magic (message : bytes) : option string :=
  match message with
  | b0 :: b1 :: b2 :: rest =>
      if bool_decide (take 3 message = b_ID3) then Some "mp3"
      else if (Byte.to_N b0 =? 0xFF)%N && (N.land (Byte.to_N b1) 0xE0 =? 0xE0)%N
      then Some "mp3"
      else
        match rest with
        | _ :: _ => if bool_decide (take 4 message = b_OggS) then Some "opus" else None
        | [] => None
        end
  | _ => None
  end.

(** The flags [(is_mp3, is_opus)] that [detected] and the lowercased
    negotiated encoding give (lines 239-240, 265-270). *)
Definition flags_of (negotiated : string) (detected : option string) : bool * bool :=
  match detected with
  | Some d =>
      if String.eqb d negotiated
      then (String.eqb negotiated "mp3", String.eqb negotiated "opus")
      else (String.eqb d "mp3", String.eqb d "opus")
  | None => (String.eqb negotiated "mp3", String.eqb negotiated "opus")
  end.

(** The name under which a chunk of undetermined format is saved (line
    322). *)
Definition fallback_name (negotiated : string) : string :=
  "response." +:+ unicode_lower negotiated.

(** Whether the file of line 322 is the one that handling [message] opens:
    neither flag is set. *)
Definition undetermined (negotiated : string) (message : bytes) : bool :=
  let flags := flags_of (lower negotiated) (magic message) in
  negb flags.1 && negb flags.2.

(** The arrivals that make the receive loop end: an exception from [recv()],
    a text that is not a JSON object, any binary chunk when the negotiated
    encoding is not a string, and a binary chunk of undetermined format when
    the file named after the encoding cannot be opened. *)
Definition session_ending (server_audio_format : json)
    (arrival : outcome ws_message) : bool :=
  match arrival with
  | inl _ => true
  | inr (Binary message) =>
      match server_audio_format with
      | JStr negotiated =>
          undetermined negotiated message &&
          match open_wb (fallback_name negotiated) with
          | inl _ => true
          | inr _ => false
          end
      | _ => true
      end
  | inr (Text payload) =>
      match json_loads payload with inr (JObj _) => false | _ => true end
  end.

(** The frame a tick adds to the buffer, if its read returns. *)
Definition read_ok (t : tick) : option bytes :=
  match mic_read t with
  | inr (pcm, _) => Some pcm
  | inl _ => None
  end.

(** How often a step runs, given whether a step before it raised. *)
Definition ran_once (raised_before : bool) : nat :=
  if raised_before then 0%nat else 1%nat.

(** ** Predicates on computations *)

(** [m] does not touch the stop flag, the encoder, the clock, the task
    state, or the channel's outbound side. *)
Definition keeps {A} (m : M A) : Prop :=
  forall w,
    stop (m w).2 = stop w /\ encoder (m w).2 = encoder w /\
    clock (m w).2 = clock w /\ recv_task (m w).2 = recv_task w /\
    sent (m w).2 = sent w.

(** [m] raises in no world. *)
Definition total {A} (m : M A) : Prop :=
  forall w, exists a w', m w = (inr a, w').

(** [m] returns the same value in every world and does nothing but print
    the same lines. *)
Definition narrates {A} (m : M A) : Prop :=
  exists a ls, forall w, m w = (inr a, says w ls).


(** A tick of a capture that goes on, however long it lasts: the microphone
    delivers a frame and nothing that arrives meanwhile ends the session. *)
Definition calm (server_audio_format : json) (t : tick) : Prop :=
  (exists pcm overflowed, mic_read t = inr (pcm, overflowed)) /\
  Forall (λ a, session_ending server_audio_format a = false) (arrivals t).


(** Whether the test of line 159 passes at the head of every iteration that
    [ticks] drive from [now] on, and once more after the last of them. *)
Fixpoint in_window (start_ts : float) (now : Z) (ticks : list tick) : bool :=
  within_recording start_ts now &&
  match ticks with
  | [] => true
  | t :: ticks => in_window start_ts (now + read_ms t + yield_ms t) ticks
  end.

End Client.

(** ** Footprints

    What a computation may do to the world, read off the stretch of trace it
    adds. *)

Section Footprints.
Context `{Collaborators}.

(** The files after the writes recorded in a stretch of trace. *)
Definition replay (t : list event) (fs : gmap string bytes) : gmap string bytes :=
  foldl (λ fs e, match e with FileWrite path data => <[path := data]> fs | _ => fs end)
    fs t.

(** Whether [stop.set()] occurs in a stretch of trace. *)
Definition sets_flag (t : list event) : bool :=
  existsb (λ e, match e with StopSet => true | _ => false end) t.

(** From [w] to [w'] the trace grew by [t]; the files changed by the writes
    that [t] records and by nothing else; the flag is set in [w'] if it was
    set in [w] or [t] sets it. *)
Definition accounted (w w' : world) (t : list event) : Prop :=
  trace w' = trace w ++ t /\
  files w' = replay t (files w) /\
  stop w' = stop w || sets_flag t.

(** Every run of [m] is accounted for by a stretch of [allowed] events. *)
Definition logs {A} (allowed : event -> bool) (m : M A) : Prop :=
  forall w, exists t, accounted w (m w).2 t /\ forallb allowed t = true.

(** The lines that [receive_messages] prints (lines 235-362). *)
Definition receive_line (l : line) : bool :=
  match l with
  | ReceivedAudio _ | DetectedID3 | DetectedFrameSync | DetectedOgg
  | FormatMismatch _ _ | Tip _ | SavedMP3 _ | HowToPlayMP3
  | PlayingDecodedOpus | ErrorDecodingOpus _ | AudioLength _ | First10Bytes _
  | SavedUnknown | CouldNotDetermine _ | DecodedAsOpus | ErrorDecodingAsOpus _
  | SavedForAnalysis _ | SavedAs _ | HowToPlay _
  | Transcription _ | LLMResponse _ | HelloAgain _ | SystemMessage _
  | UnknownMessageType _ | FullMessage _ | ClosedDuringReceive | ReceiveError _ => true
  | _ => false
  end.

(** The three files in which a binary chunk is saved when [negotiated] is
    the negotiated encoding: the two fixed ones, and the one that the name
    of line 322 denotes, if it opens. *)
Definition chunk_path (negotiated : string) (path : string) : bool :=
  String.eqb path "response.mp3" || String.eqb path "response_unknown.bin" ||
  match open_wb (fallback_name negotiated) with
  | inr file => String.eqb path file
  | inl _ => false
  end.

(** The files a session writes under the negotiated encoding
    [server_audio_format]; none when it is not a string. *)
Definition session_file (server_audio_format : json) (path : string) : bool :=
  match server_audio_format with
  | JStr negotiated => chunk_path negotiated path
  | _ => false
  end.

(** What the receive task may do: print its lines, write one of the files
    of the session, call the decoder, play, and set the flag. *)
Definition receive_event (server_audio_format : json) (e : event) : bool :=
  match e with
  | Say l => receive_line l
  | FileWrite path _ => session_file server_audio_format path
  | OpusDecode _ | OutputWrite _ | StopSet => true
  | _ => false
  end.

(** The lines of the second attempt at decoding (lines 312-319). *)
Definition second_attempt_line (l : line) : bool :=
  match l with
  | DecodedAsOpus | ErrorDecodingAsOpus _ | SavedForAnalysis _ => true
  | _ => false
  end.

(** What handling the binary chunk [message] may do: print the lines of
    lines 235-305 and 325-326, write [message] itself to one of the three
    files, hand [message] to the decoder, and play what it returns. *)
Definition chunk_event (negotiated : string) (message : bytes) (e : event) : bool :=
  match e with
  | Say l =>
      match l with
      | ReceivedAudio _ | DetectedID3 | DetectedFrameSync | DetectedOgg
      | FormatMismatch _ _ | Tip _ | SavedMP3 _ | HowToPlayMP3
      | PlayingDecodedOpus | ErrorDecodingOpus _ | AudioLength _ | First10Bytes _
      | SavedUnknown | CouldNotDetermine _ | SavedAs _ | HowToPlay _ => true
      | _ => false
      end
  | FileWrite path data => bool_decide (data = message) && chunk_path negotiated path
  | OpusDecode packet => bool_decide (packet = message)
  | OutputWrite _ => true
  | _ => false
  end.

(** The warning and the tip printed when the magic bytes show another format
    than the negotiated one (lines 265-267). *)
Definition mismatch_lines (negotiated : string) (detected : option string) : list line :=
  match detected with
  | Some d =>
      if String.eqb d (lower negotiated) then []
      else [FormatMismatch d (JStr negotiated); Tip d]
  | None => []
  end.

(** What the client as a whole may do: anything but write a file that is
    not one of the files of the session. *)
Definition client_event (server_audio_format : json) (e : event) : bool :=
  match e with
  | FileWrite path _ => session_file server_audio_format path
  | _ => true
  end.

(** The flags with which [render] is entered, and the negotiated encoding:
    when neither flag is set the encoding is not ["opus"]. *)
Definition entered (negotiated : string) (is_mp3 is_opus : bool) : Prop :=
  is_mp3 = false -> is_opus = false -> String.eqb (lower negotiated) "opus" = false.

(** The same, without sending on the channel. *)
Definition quiet_event (server_audio_format : json) (e : event) : bool :=
  match e with
  | WsSend _ => false
  | _ => client_event server_audio_format e
  end.

(** The encoding a session negotiates; [None] when the handshake raises. *)
Definition negotiated_encoding (audio_format : string) (reply : outcome ws_message)
    (w : world) : json :=
  match handshake audio_format None reply w with
  | (inr (_, server_audio_format), _) => server_audio_format
  | (inl _, _) => JNull
  end.


(** [w'] holds the files of [w], but for the files of the session. *)
Definition same_files_outside (server_audio_format : json) (w w' : world) : Prop :=
  forall path, session_file server_audio_format path = false ->
    files w' !! path = files w !! path.

End Footprints.

(** ** A concrete environment

    Stand-ins for the libraries, used to run the client on concrete inputs:
    a codec that numbers its packets, devices that do not fail, and a JSON
    decoder that knows the texts used below and rejects every other one. *)
Module Stub.

Definition quote : string := String (ascii_of_nat 34) EmptyString.
Definition quoted (s : string) : string := quote +:+ s +:+ quote.

(** [{"type":"hello","session_id":"abc"}] *)
Definition hello_reply_text : string :=
  "{" +:+ quoted "type" +:+ ":" +:+ quoted "hello" +:+ "," +:+
  quoted "session_id" +:+ ":" +:+ quoted "abc" +:+ "}".

(** [{"type":"stt","text":"hello"}] *)
Definition stt_text : string :=
  "{" +:+ quoted "type" +:+ ":" +:+ quoted "stt" +:+ "," +:+
  quoted "text" +:+ ":" +:+ quoted "hello" +:+ "}".

(** [{"type":"ping"}] *)
Definition ping_text : string :=
  "{" +:+ quoted "type" +:+ ":" +:+ quoted "ping" +:+ "}".

Definition loads_table (s : string) : outcome json :=
  if String.eqb s hello_reply_text then
    inr (JObj (list_to_map [("type", JStr "hello"); ("session_id", JStr "abc")]))
  else if String.eqb s stt_text then
    inr (JObj (list_to_map [("type", JStr "stt"); ("text", JStr "hello")]))
  else if String.eqb s ping_text then
    inr (JObj (list_to_map [("type", JStr "ping")]))
  else if String.eqb s "[1]" then
    inr (JArr [JInt 1])
  else inl JSONDecodeError.

(** The packet of a frame: its sequence number and its first byte; an empty
    frame is refused (OPUS_BAD_ARG). *)
Definition numbering_encode (seq : nat) (pcm : bytes) (frame_size : Z)
    : outcome bytes * nat :=
  match pcm with
  | [] => (inl (OpusError (-1)), seq)
  | b :: _ => (inr [default x00 (Byte.of_nat (seq mod 256)); b], S seq)
  end.

(** Only two-byte packets decode (OPUS_INVALID_PACKET otherwise); the PCM is
    the payload byte, twice. *)
Definition numbering_decode (seq : nat) (packet : bytes) (frame_size : Z)
    : outcome bytes * nat :=
  match packet with
  | [_; b] => (inr [b; b], S seq)
  | _ => (inl (OpusError (-4)), seq)
  end.

Definition collaborators : Collaborators := {|
  encoder_state := nat;
  decoder_state := nat;
  json_dumps := fun _ => "{}";
  json_loads := loads_table;
  opus_encode := numbering_encode;
  opus_decode := numbering_decode;
  mic_open := None;
  output_write := fun _ => None;
  ws_close := None;
  output_stop := None;
  output_close := None;
  wall_epoch := 1700000000000;
  unicode_lower := lower;
  open_wb := inr;
  open_wb_mp3 := eq_refl;
  open_wb_unknown := eq_refl;
|}.

(** The same, with a channel whose [close()] raises. *)
Definition closing_fails : Collaborators := {|
  encoder_state := nat;
  decoder_state := nat;
  json_dumps := fun _ => "{}";
  json_loads := loads_table;
  opus_encode := numbering_encode;
  opus_decode := numbering_decode;
  mic_open := None;
  output_write := fun _ => None;
  ws_close := Some (OSError 32);
  output_stop := None;
  output_close := None;
  wall_epoch := 1700000000000;
  unicode_lower := lower;
  open_wb := inr;
  open_wb_mp3 := eq_refl;
  open_wb_unknown := eq_refl;
|}.

(** A capture tick in which the microphone delivers the frame [01 00] after
    18 ms and the receive task, given a transcription, holds the loop for
    2 ms more. *)
Definition steady_tick : tick :=
  Tick (inr ([x01; x00], false)) 18 [inr (Text stt_text)] 2.

(** A send that succeeds while nothing arrives. *)
Definition quiet_step : send_step := SendStep None [].

(** A send that succeeds while a text that is not JSON arrives: the receive
    task sets the flag and returns. *)
Definition garbled_step : send_step := SendStep None [inr (Text "not json")].

(** The world when the session starts. *)
Definition start `{C : Collaborators} (e : encoder_state) (d : decoder_state) : world :=
  World false ∅ [] e d 0 Fresh.

Definition start_waiting `{C : Collaborators} (e : encoder_state) (d : decoder_state) : world :=
  World false ∅ [] e d 0 Waiting.

End Stub.

(** ** Environments with faults, and with more texts *)
Module Faults.
Import Stub.

(** [{"type":"hello","session_id":"abc","audio_format":null}] *)
Definition null_format_reply_text : string :=
  "{" +:+ quoted "type" +:+ ":" +:+ quoted "hello" +:+ "," +:+
  quoted "session_id" +:+ ":" +:+ quoted "abc" +:+ "," +:+
  quoted "audio_format" +:+ ":null}".

(** [{"type":"welcome","audio_format":"WAV"}] *)
Definition welcome_reply_text : string :=
  "{" +:+ quoted "type" +:+ ":" +:+ quoted "welcome" +:+ "," +:+
  quoted "audio_format" +:+ ":" +:+ quoted "WAV" +:+ "}".

(** The texts of [loads_table], the two replies above and the empty
    object. *)
Definition loads_more (s : string) : outcome json :=
  if String.eqb s "{}" then inr (JObj ∅)
  else if String.eqb s null_format_reply_text then
    inr (JObj (list_to_map [("type", JStr "hello"); ("session_id", JStr "abc");
                            ("audio_format", JNull)]))
  else if String.eqb s welcome_reply_text then
    inr (JObj (list_to_map [("type", JStr "welcome"); ("audio_format", JStr "WAV")]))
  else loads_table s.

Definition with_more_texts : Collaborators := {|
  encoder_state := nat;
  decoder_state := nat;
  json_dumps := fun _ => "{}";
  json_loads := loads_more;
  opus_encode := numbering_encode;
  opus_decode := numbering_decode;
  mic_open := None;
  output_write := fun _ => None;
  ws_close := None;
  output_stop := None;
  output_close := None;
  wall_epoch := 1700000000000;
  unicode_lower := lower;
  open_wb := inr;
  open_wb_mp3 := eq_refl;
  open_wb_unknown := eq_refl;
|}.

(** An output device whose [write] raises. *)
Definition muted : Collaborators := {|
  encoder_state := nat;
  decoder_state := nat;
  json_dumps := fun _ => "{}";
  json_loads := loads_table;
  opus_encode := numbering_encode;
  opus_decode := numbering_decode;
  mic_open := None;
  output_write := fun _ => Some (PortAudioError (-9999));
  ws_close := None;
  output_stop := None;
  output_close := None;
  wall_epoch := 1700000000000;
  unicode_lower := lower;
  open_wb := inr;
  open_wb_mp3 := eq_refl;
  open_wb_unknown := eq_refl;
|}.

(** A machine without a microphone. *)
Definition no_microphone : Collaborators := {|
  encoder_state := nat;
  decoder_state := nat;
  json_dumps := fun _ => "{}";
  json_loads := loads_table;
  opus_encode := numbering_encode;
  opus_decode := numbering_decode;
  mic_open := Some (PortAudioError (-9996));
  output_write := fun _ => None;
  ws_close := None;
  output_stop := None;
  output_close := None;
  wall_epoch := 1700000000000;
  unicode_lower := lower;
  open_wb := inr;
  open_wb_mp3 := eq_refl;
  open_wb_unknown := eq_refl;
|}.

(** A working directory without a directory [response.wav], so that the
    name [response.wav/x] cannot be opened (FileNotFoundError), and with a
    directory [response.x], so that [response.x/../notes.txt] is the file
    [notes.txt]. *)
Definition resolve (name : string) : outcome string :=
  if String.eqb name "response.wav/x" then inl (OSError 2)
  else if String.eqb name "response.x/../notes.txt" then inr "notes.txt"
  else inr name.

Definition with_directories : Collaborators := {|
  encoder_state := nat;
  decoder_state := nat;
  json_dumps := fun _ => "{}";
  json_loads := loads_table;
  opus_encode := numbering_encode;
  opus_decode := numbering_decode;
  mic_open := None;
  output_write := fun _ => None;
  ws_close := None;
  output_stop := None;
  output_close := None;
  wall_epoch := 1700000000000;
  unicode_lower := lower;
  open_wb := resolve;
  open_wb_mp3 := eq_refl;
  open_wb_unknown := eq_refl;
|}.

(** A capture tick during which a transcription and then a text that is
    not JSON arrive. *)
Definition garbled_tick : tick :=
  Tick (inr ([x01; x00], false)) 18 [inr (Text stt_text); inr (Text "not json")] 2.

(** A capture tick that lasts 40 ms. *)
Definition slow_tick : tick := Tick (inr ([x01; x00], false)) 38 [] 2.

(** A capture tick whose read raises. *)
Definition unplugged_tick : tick := Tick (inl (PortAudioError (-9988))) 0 [] 0.

(** A capture tick whose read blocks for the whole five seconds, while a
    chunk with an ID3 tag arrives. *)
Definition long_tick : tick :=
  Tick (inr ([x01; x00], false)) 5000 [inr (Binary (b_ID3 ++ [x01]))] 0.

End Faults.

(** * Properties *)

Local Open Scope client_scope.


Section MonadLaws.
Context `{Collaborators}.

Lemma bind_run {A B} (m : M A) (f : A -> M B) w a w' :
  m w = (inr a, w') -> bind m f w = f a w'.
Proof. unfold bind. intros ->. reflexivity. Qed.

Lemma bind_raise {A B} (m : M A) (f : A -> M B) w e w' :
  m w = (inl e, w') -> bind m f w = (inl e, w').
Proof. unfold bind. intros ->. reflexivity. Qed.

Lemma bind_lift_inr {A B} (a : A) (f : A -> M B) w :
  bind (lift (inr a)) f w = f a w.
Proof. reflexivity. Qed.

Lemma bind_ret {A B} (a : A) (f : A -> M B) w : bind (ret a) f w = f a w.
Proof. reflexivity. Qed.

Lemma bind_print {B} l (f : unit -> M B) w :
  bind (print l) f w = f tt (says w [l]).
Proof. reflexivity. Qed.

Lemma print_run l w : print l w = (inr tt, says w [l]).
Proof. reflexivity. Qed.

Lemma says_says w a b : says (says w a) b = says w (a ++ b).
Proof. unfold says. cbn. rewrite fmap_app, app_assoc. reflexivity. Qed.

Lemma says_nil w : says w [] = w.
Proof. unfold says. cbn. rewrite app_nil_r. destruct w; reflexivity. Qed.

Lemma sent_app_trace w t :
  sent (with_trace (trace w ++ t) w) =
  sent w ++ omap (λ e, match e with WsSend m => Some m | _ => None end) t.
Proof. unfold sent. cbn. apply omap_app. Qed.

Lemma sent_says w ls : sent (says w ls) = sent w.
Proof.
  unfold says. rewrite sent_app_trace.
  induction ls as [|l ls IH]; cbn in *; [apply app_nil_r | exact IH].
Qed.

(** *** What the receive task leaves alone *)


Lemma keeps_ret {A} (a : A) : keeps (ret a).
Proof. intros w. cbn. auto. Qed.

Lemma keeps_lift {A} (r : outcome A) : keeps (lift r).
Proof. intros w. cbn. auto. Qed.

Lemma keeps_bind {A B} (m : M A) (f : A -> M B) :
  keeps m -> (forall a, keeps (f a)) -> keeps (bind m f).
Proof.
  intros Hm Hf w. unfold bind. specialize (Hm w).
  destruct (m w) as [[e|a] w1]; cbn in *; [exact Hm|].
  specialize (Hf a w1). destruct Hm as (? & ? & ? & ? & ?), Hf as (? & ? & ? & ? & ?).
  repeat split; congruence.
Qed.

Lemma keeps_try_except {A} (m : M A) (h : exn -> M A) :
  keeps m -> (forall e, keeps (h e)) -> keeps (try_except m h).
Proof.
  intros Hm Hh w. unfold try_except. specialize (Hm w).
  destruct (m w) as [[e|a] w1]; cbn in *; [|exact Hm].
  specialize (Hh e w1). destruct Hm as (? & ? & ? & ? & ?), Hh as (? & ? & ? & ? & ?).
  repeat split; congruence.
Qed.

Lemma keeps_print l : keeps (print l).
Proof. intros w. rewrite print_run. cbn [snd]. rewrite sent_says. cbn. auto. Qed.

Lemma keeps_write_file path data : keeps (write_file path data).
Proof.
  intros w. unfold write_file. cbn -[sent]. repeat split.
  unfold sent. cbn. rewrite omap_app. cbn. apply app_nil_r.
Qed.

Lemma keeps_open_write name data : keeps (open_write name data).
Proof.
  unfold open_write. apply keeps_bind; [apply keeps_lift|].
  intros path. apply keeps_write_file.
Qed.

(** The two fixed names open, and denote themselves. *)
Lemma open_write_mp3 data : open_write "response.mp3" data = write_file "response.mp3" data.
Proof. unfold open_write. rewrite open_wb_mp3. reflexivity. Qed.

Lemma open_write_unknown data :
  open_write "response_unknown.bin" data = write_file "response_unknown.bin" data.
Proof. unfold open_write. rewrite open_wb_unknown. reflexivity. Qed.

Lemma keeps_decode packet : keeps (decode packet).
Proof.
  intros w. unfold decode. destruct (opus_decode _ _ _) as [r st]. cbn -[sent].
  repeat split. unfold sent. cbn. rewrite omap_app. cbn. apply app_nil_r.
Qed.

Lemma keeps_play pcm : keeps (play pcm).
Proof.
  intros w. unfold play, bind, emit, failing. cbn -[sent].
  destruct (output_write pcm); cbn -[sent]; repeat split;
    unfold sent; cbn; rewrite omap_app; cbn; apply app_nil_r.
Qed.

End MonadLaws.

Ltac keeps_step :=
  match goal with
  | |- keeps (bind _ _) => apply keeps_bind; [|intros ?]
  | |- keeps (try_except _ _) => apply keeps_try_except; [|intros ?]
  | |- keeps (ret _) => apply keeps_ret
  | |- keeps (lift _) => apply keeps_lift
  | |- keeps (print _) => apply keeps_print
  | |- keeps (write_file _ _) => apply keeps_write_file
  | |- keeps (open_write _ _) => apply keeps_open_write
  | |- keeps (decode _) => apply keeps_decode
  | |- keeps (play _) => apply keeps_play
  | |- keeps (if ?b then _ else _) => destruct b
  | |- keeps (match ?x with _ => _ end) => destruct x
  | |- keeps (let _ := _ in _) => cbv zeta
  end.

Section Receive.
Context `{Collaborators}.

Lemma keeps_frame_sync message : keeps (frame_sync message).
Proof. unfold frame_sync. repeat keeps_step. Qed.

Lemma keeps_detect_format message : keeps (detect_format message).
Proof. unfold detect_format. repeat (keeps_step || apply keeps_frame_sync). Qed.

Lemma keeps_classify saf message : keeps (classify saf message).
Proof. unfold classify. repeat (keeps_step || apply keeps_detect_format). Qed.

Lemma keeps_render saf message a b : keeps (render saf message a b).
Proof. unfold render. repeat keeps_step. Qed.

Lemma keeps_handle_binary saf message : keeps (handle_binary saf message).
Proof.
  unfold handle_binary.
  repeat (keeps_step || apply keeps_classify || apply keeps_render).
Qed.

Lemma keeps_handle_text message : keeps (handle_text message).
Proof. unfold handle_text. repeat keeps_step. Qed.

Lemma keeps_receive_iteration saf arrival : keeps (receive_iteration saf arrival).
Proof.
  unfold receive_iteration.
  repeat (keeps_step || apply keeps_handle_binary || apply keeps_handle_text).
Qed.

End Receive.

(** *** Computations that return, and computations that only print *)

Section Returning.
Context `{Collaborators}.



Lemma narrates_total {A} (m : M A) : narrates m -> total m.
Proof. intros (a & ls & Hm) w. rewrite Hm. eauto. Qed.

Lemma narrates_ret {A} (a : A) : narrates (ret a).
Proof. exists a, []. intros w. rewrite says_nil. reflexivity. Qed.

Lemma narrates_lift_inr {A} (a : A) : narrates (lift (inr a)).
Proof. exact (narrates_ret a). Qed.

Lemma narrates_print l : narrates (print l).
Proof. exists tt, [l]. intros w. apply print_run. Qed.

Lemma narrates_bind {A B} (m : M A) (f : A -> M B) :
  narrates m -> (forall a, narrates (f a)) -> narrates (bind m f).
Proof.
  intros (a & ls & Hm) Hf. destruct (Hf a) as (b & ls' & Hfa).
  exists b, (ls ++ ls'). intros w.
  rewrite (bind_run _ _ _ _ _ (Hm w)), Hfa. rewrite says_says. reflexivity.
Qed.

Lemma total_ret {A} (a : A) : total (ret a).
Proof. intros w. unfold ret. eauto. Qed.

Lemma total_lift_inr {A} (a : A) : total (lift (inr a)).
Proof. exact (total_ret a). Qed.

Lemma total_print l : total (print l).
Proof. apply narrates_total, narrates_print. Qed.

Lemma total_write_file path data : total (write_file path data).
Proof. intros w. unfold write_file. eauto. Qed.

Lemma total_bind {A B} (m : M A) (f : A -> M B) :
  total m -> (forall a, total (f a)) -> total (bind m f).
Proof.
  intros Hm Hf w. destruct (Hm w) as (a & w1 & Hw).
  rewrite (bind_run _ _ _ _ _ Hw). apply Hf.
Qed.

Lemma total_bind_lift_inr {A B} (a : A) (f : A -> M B) :
  total (f a) -> total (bind (lift (inr a)) f).
Proof. intros Hf w. rewrite bind_lift_inr. apply Hf. Qed.

(** A [try] whose handler cannot raise cannot raise. *)
Lemma total_try_except {A} (m : M A) (h : exn -> M A) :
  (forall e, total (h e)) -> total (try_except m h).
Proof.
  intros Hh w. unfold try_except.
  destruct (m w) as [[e|a] w1]; [apply Hh | eauto].
Qed.

End Returning.

Ltac narrates_step :=
  match goal with
  | |- narrates (bind _ _) => apply narrates_bind; [|intros ?]
  | |- narrates (ret _) => apply narrates_ret
  | |- narrates (lift (inr _)) => apply narrates_lift_inr
  | |- narrates (print _) => apply narrates_print
  | |- narrates (if ?b then _ else _) => destruct b
  | |- narrates (match ?x with _ => _ end) => destruct x
  end.

Ltac total_step :=
  match goal with
  | |- total (bind (lift (inr _)) _) =>
      apply total_bind_lift_inr; cbv beta;
      cbn [dict_get dict_get_default str_lower]
  | |- total (bind _ _) => apply total_bind; [|intros ?]
  | |- total (try_except _ _) => apply total_try_except; intros ?
  | |- total (ret _) => apply total_ret
  | |- total (lift (inr _)) => apply total_lift_inr
  | |- total (print _) => apply total_print
  | |- total (write_file _ _) => apply total_write_file
  | |- total (if ?b then _ else _) => destruct b
  | |- total (match ?x with _ => _ end) => destruct x
  end.

(** *** Footprints of the computations *)

Section FootprintLaws.
Context `{Collaborators}.

Lemma replay_app t1 t2 fs : replay (t1 ++ t2) fs = replay t2 (replay t1 fs).
Proof. apply foldl_app. Qed.

Lemma sets_flag_app t1 t2 : sets_flag (t1 ++ t2) = sets_flag t1 || sets_flag t2.
Proof. apply existsb_app. Qed.

Lemma accounted_refl w : accounted w w [].
Proof.
  unfold accounted. cbn. rewrite app_nil_r, orb_false_r. auto.
Qed.

Lemma accounted_trans w1 w2 w3 t1 t2 :
  accounted w1 w2 t1 -> accounted w2 w3 t2 -> accounted w1 w3 (t1 ++ t2).
Proof.
  intros (Ht1 & Hf1 & Hs1) (Ht2 & Hf2 & Hs2). unfold accounted.
  rewrite Ht2, Ht1, Hf2, Hf1, Hs2, Hs1, replay_app, sets_flag_app.
  rewrite app_assoc, orb_assoc. auto.
Qed.

Lemma logs_weaken {A} (P Q : event -> bool) (m : M A) :
  (forall e, P e = true -> Q e = true) -> logs P m -> logs Q m.
Proof.
  intros HPQ Hm w. destruct (Hm w) as (t & Ha & Ht). exists t. split; [exact Ha|].
  rewrite forallb_forall in *. auto.
Qed.

Lemma logs_nothing {A} (P : event -> bool) (m : M A) :
  (forall w, trace (m w).2 = trace w /\ files (m w).2 = files w /\
             stop (m w).2 = stop w) ->
  logs P m.
Proof.
  intros Hm w. destruct (Hm w) as (Ht & Hf & Hs). exists []. split; [|reflexivity].
  unfold accounted. cbn. rewrite Ht, Hf, Hs, app_nil_r, orb_false_r. auto.
Qed.

Lemma logs_one {A} (P : event -> bool) (m : M A) (e : event) :
  P e = true ->
  (forall w, trace (m w).2 = trace w ++ [e] /\
             files (m w).2 = replay [e] (files w) /\
             stop (m w).2 = stop w || sets_flag [e]) ->
  logs P m.
Proof.
  intros He Hm w. exists [e]. split; [exact (Hm w)|]. cbn. rewrite He. reflexivity.
Qed.

Lemma logs_ret {A} P (a : A) : logs P (ret a).
Proof. apply logs_nothing. intros w. cbn. auto. Qed.

Lemma logs_lift {A} P (r : outcome A) : logs P (lift r).
Proof. apply logs_nothing. intros w. cbn. auto. Qed.

Lemma logs_raise {A} P (e : exn) : logs P (raise (A := A) e).
Proof. apply logs_nothing. intros w. cbn. auto. Qed.

Lemma logs_failing P (r : option exn) : logs P (failing r).
Proof. apply logs_nothing. intros w. unfold failing. destruct r; cbn; auto. Qed.

Lemma logs_advance P (ms : Z) : logs P (advance ms).
Proof. apply logs_nothing. intros w. cbn. auto. Qed.

Lemma logs_wall_time P : logs P wall_time.
Proof. apply logs_nothing. intros w. cbn. auto. Qed.

Lemma logs_bind {A B} P (m : M A) (f : A -> M B) :
  logs P m -> (forall a, logs P (f a)) -> logs P (bind m f).
Proof.
  intros Hm Hf w. unfold bind. destruct (Hm w) as (t1 & Ha1 & Ht1).
  destruct (m w) as [[e|a] w1]; cbn [snd] in *; [eauto|].
  destruct (Hf a w1) as (t2 & Ha2 & Ht2). exists (t1 ++ t2).
  split; [eapply accounted_trans; eassumption|].
  rewrite forallb_app, Ht1, Ht2. reflexivity.
Qed.

Lemma logs_bind_lift_inr {A B} P (a : A) (f : A -> M B) :
  logs P (f a) -> logs P (bind (lift (inr a)) f).
Proof. intros Hf w. rewrite bind_lift_inr. apply Hf. Qed.

Lemma logs_try_except {A} P (m : M A) (h : exn -> M A) :
  logs P m -> (forall e, logs P (h e)) -> logs P (try_except m h).
Proof.
  intros Hm Hh w. unfold try_except. destruct (Hm w) as (t1 & Ha1 & Ht1).
  destruct (m w) as [[e|a] w1]; cbn [snd] in *; [|eauto].
  destruct (Hh e w1) as (t2 & Ha2 & Ht2). exists (t1 ++ t2).
  split; [eapply accounted_trans; eassumption|].
  rewrite forallb_app, Ht1, Ht2. reflexivity.
Qed.

Lemma logs_emit P (e : event) :
  match e with FileWrite _ _ | StopSet => False | _ => True end ->
  P e = true -> logs P (emit e).
Proof.
  intros Hk He. apply (logs_one P _ e He). intros w. cbn.
  destruct e; try contradiction; rewrite ?orb_false_r; auto.
Qed.

Lemma logs_print P (l : line) : P (Say l) = true -> logs P (print l).
Proof. intros Hl. apply logs_emit; [exact I | exact Hl]. Qed.

Lemma logs_stop_set P : P StopSet = true -> logs P stop_set.
Proof.
  intros Hs. apply (logs_one P _ StopSet Hs). intros w. cbn.
  rewrite orb_true_r. auto.
Qed.

Lemma logs_write_file P path data :
  P (FileWrite path data) = true -> logs P (write_file path data).
Proof.
  intros Hw. apply (logs_one P _ _ Hw). intros w. cbn. rewrite orb_false_r. auto.
Qed.

Lemma logs_open_write P name data :
  (forall path, open_wb name = inr path -> P (FileWrite path data) = true) ->
  logs P (open_write name data).
Proof.
  intros HP. unfold open_write. destruct (open_wb name) as [e|path] eqn:Ho.
  - apply logs_nothing. intros w. cbn. auto.
  - apply logs_bind_lift_inr, logs_write_file, HP. reflexivity.
Qed.

Lemma logs_decode P packet : P (OpusDecode packet) = true -> logs P (decode packet).
Proof.
  intros Hd. apply (logs_one P _ _ Hd). intros w. unfold decode.
  destruct (opus_decode _ _ _) as [r st]. cbn. rewrite orb_false_r. auto.
Qed.

Lemma logs_encode P pcm : P (OpusEncode pcm) = true -> logs P (encode pcm).
Proof.
  intros Hd. apply (logs_one P _ _ Hd). intros w. unfold encode.
  destruct (opus_encode _ _ _) as [r st]. cbn. rewrite orb_false_r. auto.
Qed.

Lemma logs_play P pcm : P (OutputWrite pcm) = true -> logs P (play pcm).
Proof.
  intros Hp. unfold play. apply logs_bind; [|intros ?; apply logs_failing].
  apply logs_emit; [exact I | exact Hp].
Qed.

(** The flag is never cleared, and a file that no recorded write names is
    left as it was. *)
Lemma accounted_flag_stays w w' t : accounted w w' t -> stop w = true -> stop w' = true.
Proof. intros (_ & _ & ->) ->. reflexivity. Qed.

Lemma replay_untouched (P : event -> bool) t fs path :
  forallb P t = true ->
  (forall p d, P (FileWrite p d) = true -> p <> path) ->
  replay t fs !! path = fs !! path.
Proof.
  intros Ht HP. revert fs. induction t as [|e t IH]; intros fs; [reflexivity|].
  cbn in Ht. apply andb_true_iff in Ht as [He Ht]. cbn [replay foldl].
  fold (replay t). change (foldl _ ?x t) with (replay t x). rewrite (IH Ht).
  destruct e; try reflexivity. apply lookup_insert_ne. eauto.
Qed.

Lemma sent_accounted (P : event -> bool) w w' t :
  accounted w w' t -> forallb P t = true ->
  (forall m, P (WsSend m) = false) -> sent w' = sent w.
Proof.
  intros (Ht & _ & _) Hall HP. unfold sent. rewrite Ht, omap_app. clear Ht.
  replace (omap _ t) with (@nil ws_message); [apply app_nil_r|].
  induction t as [|e t IH]; [reflexivity|].
  cbn in Hall. apply andb_true_iff in Hall as [He Hall]. cbn.
  destruct e; cbn; try (apply IH; exact Hall). rewrite HP in He. discriminate.
Qed.

End FootprintLaws.

Ltac logs_step :=
  match goal with
  | |- logs _ (bind (lift (inr _)) _) => apply logs_bind_lift_inr; cbv beta
  | |- logs _ (bind _ _) => apply logs_bind; [|intros ?]
  | |- logs _ (try_except _ _) => apply logs_try_except; [|intros ?]
  | |- logs _ (ret _) => apply logs_ret
  | |- logs _ (lift _) => apply logs_lift
  | |- logs _ (raise _) => apply logs_raise
  | |- logs _ (failing _) => apply logs_failing
  | |- logs _ (advance _) => apply logs_advance
  | |- logs _ wall_time => apply logs_wall_time
  | |- logs _ (print _) => apply logs_print; reflexivity
  | |- logs _ stop_set => apply logs_stop_set; reflexivity
  | |- logs _ (write_file _ _) => apply logs_write_file; try reflexivity
  | |- logs _ (open_write _ _) => apply logs_open_write; intros ? ?; try reflexivity
  | |- logs _ (decode _) => apply logs_decode; try reflexivity
  | |- logs _ (encode _) => apply logs_encode; try reflexivity
  | |- logs _ (play _) => apply logs_play; reflexivity
  | |- logs _ (emit _) => apply logs_emit; [exact I | reflexivity]
  | |- logs _ (if ?b then _ else _) => destruct b eqn:?
  | |- logs _ (match ?x with _ => _ end) => destruct x eqn:?
  end.

(** *** The receive task *)

Section ReceiveTask.
Context `{Collaborators}.

Lemma narrates_frame_sync message : narrates (frame_sync message).
Proof.
  unfold frame_sync. destruct message as [|b0 [|b1 r]]; cbn [length Nat.leb negb].
  1,2: apply narrates_ret.
  cbn [getitem lookup list_lookup]. repeat narrates_step.
Qed.

Lemma narrates_detect_format message : narrates (detect_format message).
Proof.
  unfold detect_format. repeat (narrates_step || apply narrates_frame_sync).
Qed.

Lemma narrates_classify negotiated message :
  narrates (classify (JStr negotiated) message).
Proof.
  unfold classify. cbn [str_lower].
  repeat (narrates_step || apply narrates_detect_format).
Qed.

(** The flags do not depend on the world the chunk arrives in. *)
Lemma classify_anywhere negotiated message w flags :
  (classify (JStr negotiated) message w).1 = inr flags ->
  exists ls, forall w', classify (JStr negotiated) message w' = (inr flags, says w' ls).
Proof.
  destruct (narrates_classify negotiated message) as (a & ls & Hc).
  rewrite Hc. cbn. intros [= <-]. eauto.
Qed.

(** The flags and the lines of [classify], from what [detect_format] finds. *)
Lemma classify_run (negotiated : string) (message : bytes)
    (detected : option string) (ls : list line) :
  (forall w, detect_format message w = (inr detected, says w ls)) ->
  forall w,
    classify (JStr negotiated) message w =
      (inr (flags_of (lower negotiated) detected),
       says w (ls ++ mismatch_lines negotiated detected)).
Proof.
  intros Hd w. unfold classify. cbn [str_lower]. rewrite !bind_lift_inr.
  rewrite (bind_run _ _ _ _ _ (Hd w)).
  destruct detected as [d|]; cbn [flags_of mismatch_lines].
  - rewrite bind_lift_inr. destruct (String.eqb d (lower negotiated)); cbn [negb].
    + rewrite app_nil_r. reflexivity.
    + rewrite !bind_print, !says_says. reflexivity.
  - rewrite app_nil_r. reflexivity.
Qed.

Lemma classify_flags_of (negotiated : string) (message : bytes) :
  exists detected ls,
    forall w,
      classify (JStr negotiated) message w =
        (inr (flags_of (lower negotiated) detected),
         says w (ls ++ mismatch_lines negotiated detected)).
Proof.
  destruct (narrates_detect_format message) as (d & ls & Hd).
  exists d, ls. apply classify_run, Hd.
Qed.

Lemma flags_of_exclusive (negotiated : string) (detected : option string) :
  (flags_of negotiated detected).1 && (flags_of negotiated detected).2 = false.
Proof.
  assert (Hx : forall x, String.eqb x "mp3" && String.eqb x "opus" = false).
  { intros x. destruct (String.eqb_spec x "mp3") as [->|]; reflexivity. }
  unfold flags_of. destruct detected as [d|]; [destruct (String.eqb d negotiated)|];
    apply Hx.
Qed.

(** [detect_format] finds MP3, Opus or nothing. *)
Lemma detect_format_values (message : bytes) (w w' : world) (detected : option string) :
  detect_format message w = (inr detected, w') ->
  detected = None \/ detected = Some "mp3" \/ detected = Some "opus".
Proof.
  unfold detect_format. destruct (3 <=? length message)%nat; [|intros [= <- _]; auto].
  destruct (bool_decide _); [cbn; intros [= <- _]; auto|].
  unfold bind at 1. destruct (frame_sync message w) as [[e|[]] w1]; [discriminate| |].
  - cbn. intros [= <- _]. auto.
  - destruct (4 <=? length message)%nat; [|intros [= <- _]; auto].
    destruct (bool_decide _); cbn; intros [= <- _]; auto.
Qed.

(** With neither flag set, nothing was detected and the negotiated encoding
    is neither ["mp3"] nor ["opus"]. *)
Lemma flags_of_neither (negotiated : string) (detected : option string) :
  detected = None \/ detected = Some "mp3" \/ detected = Some "opus" ->
  flags_of negotiated detected = (false, false) ->
  detected = None /\
  String.eqb negotiated "mp3" = false /\ String.eqb negotiated "opus" = false.
Proof.
  unfold flags_of. intros [->|[->| ->]].
  - intros [= -> ->]. auto.
  - destruct (String.eqb_spec "mp3" negotiated) as [<-|]; discriminate.
  - destruct (String.eqb_spec "opus" negotiated) as [<-|]; discriminate.
Qed.

(** [detect_format] returns what the magic bytes show. *)
Lemma detect_format_magic (message : bytes) :
  exists ls, forall w, detect_format message w = (inr (magic message), says w ls).
Proof.
  destruct message as [|b0 [|b1 [|b2 rest]]];
    try (exists []; intros w; rewrite says_nil; reflexivity).
  assert (Hfs : forall w, frame_sync (b0 :: b1 :: b2 :: rest) w =
            (inr ((Byte.to_N b0 =? 0xFF)%N && (N.land (Byte.to_N b1) 0xE0 =? 0xE0)%N), w)).
  { intros w. unfold frame_sync. cbn [length Nat.leb negb getitem lookup list_lookup].
    rewrite bind_lift_inr. destruct (Byte.to_N b0 =? 255)%N; cbn [negb andb];
      [rewrite bind_lift_inr|]; reflexivity. }
  unfold detect_format, magic. cbn [length Nat.leb].
  destruct (bool_decide (take 3 (b0 :: b1 :: b2 :: rest) = b_ID3));
    [exists [DetectedID3]; intros w; reflexivity|].
  destruct ((Byte.to_N b0 =? 255)%N && (N.land (Byte.to_N b1) 224 =? 224)%N);
    [exists [DetectedFrameSync]; intros w;
     rewrite (bind_run _ _ _ _ _ (Hfs w)); reflexivity|].
  destruct rest as [|b3 rest];
    [exists []; intros w; rewrite (bind_run _ _ _ _ _ (Hfs w)), says_nil; reflexivity|].
  cbn [length Nat.leb].
  destruct (bool_decide (take 4 (b0 :: b1 :: b2 :: b3 :: rest) = b_OggS));
    [exists [DetectedOgg]; intros w; rewrite (bind_run _ _ _ _ _ (Hfs w)); reflexivity
    |exists []; intros w; rewrite (bind_run _ _ _ _ _ (Hfs w)), says_nil; reflexivity].
Qed.

Lemma magic_values (message : bytes) :
  magic message = None \/ magic message = Some "mp3" \/ magic message = Some "opus".
Proof.
  unfold magic. destruct message as [|b0 [|b1 [|b2 rest]]]; auto.
  destruct (bool_decide _); auto. destruct (_ && _); auto.
  destruct rest; auto. destruct (bool_decide _); auto.
Qed.

(** The flags of a chunk, and the lines printed while they are found. *)
Lemma classify_magic (negotiated : string) (message : bytes) :
  exists ls, forall w,
    classify (JStr negotiated) message w =
      (inr (flags_of (lower negotiated) (magic message)), says w ls).
Proof.
  destruct (detect_format_magic message) as (ls & Hd).
  exists (ls ++ mismatch_lines negotiated (magic message)).
  apply classify_run, Hd.
Qed.

(** [handle_binary] announces the chunk, classifies it and renders it. *)
Lemma handle_binary_render (negotiated : string) (message : bytes) :
  exists detected ls,
    forall w,
      handle_binary (JStr negotiated) message w =
        render (JStr negotiated) message
          (flags_of (lower negotiated) detected).1
          (flags_of (lower negotiated) detected).2
          (says w (ReceivedAudio (length message) ::
                   ls ++ mismatch_lines negotiated detected)).
Proof.
  destruct (classify_flags_of negotiated message) as (d & ls & Hc).
  exists d, ls. intros w. unfold handle_binary.
  rewrite bind_print, (bind_run _ _ _ _ _ (Hc _)), says_says. reflexivity.
Qed.

Lemma flags_of_entered (negotiated : string) (detected : option string) :
  detected = None \/ detected = Some "mp3" \/ detected = Some "opus" ->
  entered negotiated (flags_of (lower negotiated) detected).1
                     (flags_of (lower negotiated) detected).2.
Proof.
  intros Hd Ha Hb.
  destruct (flags_of_neither (lower negotiated) detected Hd) as (_ & _ & Ho); [|exact Ho].
  destruct (flags_of (lower negotiated) detected); cbn in *; congruence.
Qed.

(** [handle_binary] up to [render], with the flags the magic bytes give. *)
Lemma handle_binary_magic (negotiated : string) (message : bytes) :
  exists ls, forall w,
    handle_binary (JStr negotiated) message w =
      render (JStr negotiated) message
        (flags_of (lower negotiated) (magic message)).1
        (flags_of (lower negotiated) (magic message)).2
        (says w (ReceivedAudio (length message) :: ls)).
Proof.
  destruct (classify_magic negotiated message) as (ls & Hc).
  exists ls. intros w. unfold handle_binary.
  rewrite bind_print, (bind_run _ _ _ _ _ (Hc _)), says_says. reflexivity.
Qed.

(** A chunk of undetermined format: neither flag is set, and the negotiated
    encoding is not ["opus"]. *)
Lemma undetermined_flags (negotiated : string) (message : bytes) :
  undetermined negotiated message = true ->
  flags_of (lower negotiated) (magic message) = (false, false) /\
  String.eqb (lower negotiated) "opus" = false.
Proof.
  unfold undetermined. cbv zeta. intros Hu.
  assert (Hf : flags_of (lower negotiated) (magic message) = (false, false)).
  { destruct (flags_of (lower negotiated) (magic message)) as [[] []];
      cbn in Hu; congruence. }
  split; [exact Hf|].
  destruct (flags_of_neither _ _ (magic_values message) Hf) as (_ & _ & Ho). exact Ho.
Qed.

Lemma determined_flags (negotiated : string) (message : bytes) :
  undetermined negotiated message = false ->
  (flags_of (lower negotiated) (magic message)).1 ||
  (flags_of (lower negotiated) (magic message)).2 = true.
Proof.
  unfold undetermined. cbv zeta.
  destruct (flags_of (lower negotiated) (magic message)) as [[] []]; cbn; congruence.
Qed.

(** Lines 303-326, for an encoding that is not ["opus"]: the file named
    after the encoding is opened; if that raises, the exception leaves the
    body of the loop. *)
Lemma render_undetermined (negotiated : string) (message : bytes) (w : world) :
  String.eqb (lower negotiated) "opus" = false ->
  render (JStr negotiated) message false false w =
    match open_wb (fallback_name negotiated) with
    | inr path =>
        (inr tt,
         with_files (<[path := message]> (files w))
           (with_trace
              (trace w ++
               [Say (CouldNotDetermine (JStr negotiated)); FileWrite path message;
                Say (SavedAs (fallback_name negotiated));
                Say (HowToPlay (fallback_name negotiated))]) w))
    | inl e => (inl e, says w [CouldNotDetermine (JStr negotiated)])
    end.
Proof.
  intros Ho. unfold render. cbn [str_lower str_lower_unicode].
  rewrite bind_print, bind_lift_inr, Ho, bind_lift_inr.
  unfold open_write. fold (fallback_name negotiated).
  destruct (open_wb (fallback_name negotiated)) as [e|path]; [reflexivity|].
  destruct w; cbv [says print emit write_file bind lift with_files with_trace
    stop files trace encoder decoder clock recv_task fmap list_fmap];
    cbn [app]; rewrite <- ?app_assoc; reflexivity.
Qed.

Lemma total_open_write_mp3 data : total (open_write "response.mp3" data).
Proof. rewrite open_write_mp3. apply total_write_file. Qed.

Lemma total_open_write_unknown data : total (open_write "response_unknown.bin" data).
Proof. rewrite open_write_unknown. apply total_write_file. Qed.

(** With a flag set, [render] returns. *)
Lemma total_render_flagged negotiated message is_mp3 is_opus :
  is_mp3 || is_opus = true ->
  total (render (JStr negotiated) message is_mp3 is_opus).
Proof.
  intros Hf. unfold render. destruct is_mp3; [|destruct is_opus; [|discriminate]].
  - repeat (total_step || apply total_open_write_mp3).
  - repeat (total_step || apply total_open_write_unknown).
Qed.

(** Handling a binary chunk returns unless the chunk is of undetermined
    format and its file cannot be opened. *)
Lemma handle_binary_returns negotiated message w :
  session_ending (JStr negotiated) (inr (Binary message)) = false ->
  exists w', handle_binary (JStr negotiated) message w = (inr tt, w').
Proof.
  cbn [session_ending]. intros Hs.
  destruct (handle_binary_magic negotiated message) as (ls & ->).
  destruct (undetermined negotiated message) eqn:Hu.
  - destruct (undetermined_flags _ _ Hu) as (-> & Ho). cbn [fst snd].
    rewrite (render_undetermined _ _ _ Ho).
    destruct (open_wb (fallback_name negotiated)); [discriminate | eauto].
  - destruct (total_render_flagged negotiated message _ _ (determined_flags _ _ Hu)
                (says w (ReceivedAudio (length message) :: ls))) as ([] & w' & ->).
    eauto.
Qed.

Lemma handle_binary_raises negotiated message w :
  session_ending (JStr negotiated) (inr (Binary message)) = true ->
  exists ls e,
    open_wb (fallback_name negotiated) = inl e /\
    handle_binary (JStr negotiated) message w =
      (inl e,
       says w (ReceivedAudio (length message) :: ls ++
               [CouldNotDetermine (JStr negotiated)])).
Proof.
  cbn [session_ending]. intros Hs. apply andb_true_iff in Hs as [Hu Hs].
  destruct (handle_binary_magic negotiated message) as (ls & Hh).
  destruct (undetermined_flags _ _ Hu) as (Hf & Ho).
  destruct (open_wb (fallback_name negotiated)) as [e|path] eqn:Hopen; [|discriminate].
  exists ls, e. split; [reflexivity|].
  rewrite Hh, Hf. cbn [fst snd]. rewrite (render_undetermined _ _ _ Ho), Hopen.
  rewrite says_says. reflexivity.
Qed.

Lemma total_handle_text payload fields :
  json_loads payload = inr (JObj fields) -> total (handle_text payload).
Proof.
  intros Hl. unfold handle_text. rewrite Hl.
  cbn [dict_get dict_get_default]. repeat total_step.
Qed.

Lemma handle_text_object (payload : string) (fields : gmap string json) (w : world) :
  json_loads payload = inr (JObj fields) ->
  handle_text payload w =
    (let data := JObj fields in
     let msg_type := default JNull (fields !! "type") in
     if eq_str msg_type "stt" then
       print (Transcription (default (JStr "") (fields !! "text")))
     else if eq_str msg_type "llm" then
       print (LLMResponse (default (JStr "") (fields !! "text")))
     else if eq_str msg_type "hello" then print (HelloAgain data)
     else if eq_str msg_type "system" then
       print (SystemMessage (default (JStr "") (fields !! "command")))
     else bind (print (UnknownMessageType msg_type)) (fun _ => print (FullMessage data))) w.
Proof.
  intros Hl. unfold handle_text. rewrite Hl, bind_lift_inr.
  cbn [dict_get dict_get_default]. rewrite bind_lift_inr. cbv zeta.
  repeat (match goal with |- context [if ?b then _ else _] => destruct b end;
          [rewrite ?bind_lift_inr; reflexivity|]).
  reflexivity.
Qed.

(** The body of the loop returns on the arrivals that are not
    [session_ending], and raises on the others. *)
Lemma receive_iteration_returns saf arrival w :
  session_ending saf arrival = false ->
  exists w', receive_iteration saf arrival w = (inr tt, w').
Proof.
  intros Hs. unfold receive_iteration.
  destruct arrival as [e|[payload|payload]]; [discriminate| |].
  - cbn [session_ending] in Hs.
    destruct (json_loads payload) as [e|[]] eqn:Hl; try discriminate.
    rewrite bind_lift_inr.
    destruct (total_handle_text payload _ Hl w) as ([] & w' & Hw). eauto.
  - destruct saf; try discriminate. rewrite bind_lift_inr.
    apply handle_binary_returns, Hs.
Qed.

Lemma receive_iteration_raises saf arrival w :
  session_ending saf arrival = true ->
  exists e w', receive_iteration saf arrival w = (inl e, w').
Proof.
  intros Hs. unfold receive_iteration.
  destruct arrival as [e|[payload|payload]].
  - eexists _, _. reflexivity.
  - cbn [session_ending] in Hs. rewrite bind_lift_inr. unfold handle_text.
    destruct (json_loads payload) as [e|[]]; try discriminate;
      eexists _, _; reflexivity.
  - rewrite bind_lift_inr.
    destruct saf; try (unfold handle_binary, classify; eexists _, _; reflexivity).
    destruct (handle_binary_raises _ _ w Hs) as (ls & e & _ & ->). eauto.
Qed.


Lemma deliver_waiting saf arrival rest w :
  recv_task w = Waiting ->
  deliver saf (arrival :: rest) w =
    match receive_iteration saf arrival w with
    | (inr _, w1) =>
        if stop w1 then with_recv_task Finished w1 else deliver saf rest w1
    | (inl e, w1) => with_recv_task Finished (receive_except e w1).2
    end.
Proof. intros Hw. cbn [deliver]. rewrite Hw. reflexivity. Qed.

Lemma receive_except_run e w :
  receive_except e w =
    (inr tt,
     with_stop true
       (with_trace
          (trace w ++
           [Say (if is_connection_closed e then ClosedDuringReceive
                 else ReceiveError e); StopSet]) w)).
Proof.
  unfold receive_except.
  destruct (is_connection_closed e), w; cbv [bind print emit stop_set with_stop
    with_trace trace stop files encoder decoder clock recv_task];
    rewrite <- app_assoc; reflexivity.
Qed.

(** An arrival that is not [session_ending] leaves the flag as it is, and
    the task at the head of its loop. *)
Lemma deliver_absorbed saf arrival rest w :
  recv_task w = Waiting ->
  session_ending saf arrival = false ->
  exists w1,
    receive_iteration saf arrival w = (inr tt, w1) /\
    stop w1 = stop w /\ recv_task w1 = Waiting /\
    encoder w1 = encoder w /\ clock w1 = clock w /\ sent w1 = sent w /\
    deliver saf (arrival :: rest) w =
      if stop w then with_recv_task Finished w1 else deliver saf rest w1.
Proof.
  intros Hw Hs.
  destruct (receive_iteration_returns saf arrival w Hs) as (w1 & Hr).
  destruct (keeps_receive_iteration saf arrival w) as (Hstop & He & Hc & Ht & Hsent).
  rewrite Hr in Hstop, He, Hc, Ht, Hsent. cbn [snd] in *.
  exists w1. rewrite deliver_waiting, Hr, Hstop by exact Hw.
  repeat split; congruence.
Qed.

End ReceiveTask.

(** *** Format detection and rendering of binary chunks *)

Ltac world_eq :=
  match goal with w : world |- _ => destruct w end;
  cbv [says print emit write_file open_write stop_set bind ret lift with_stop
       with_files with_trace with_decoder with_encoder with_clock with_recv_task
       stop files trace encoder decoder clock recv_task fst snd
       fmap list_fmap];
  rewrite ?open_wb_mp3, ?open_wb_unknown;
  cbn [app]; rewrite <- ?app_assoc; cbn [app]; reflexivity.

Section BinaryChunks.
Context `{Collaborators}.

Lemma receive_iteration_binary saf message w :
  receive_iteration saf (inr (Binary message)) w = handle_binary saf message w.
Proof. reflexivity. Qed.

Lemma detect_format_ID3 (rest : bytes) (w : world) :
  detect_format (b_ID3 ++ rest) w = (inr (Some "mp3"), says w [DetectedID3]).
Proof. reflexivity. Qed.

(** A payload of fewer than three bytes is not examined. *)
Lemma detect_format_short (message : bytes) (w : world) :
  (length message < 3)%nat -> detect_format message w = (inr None, w).
Proof.
  intros Hlen. unfold detect_format.
  destruct (Nat.leb_spec 3 (length message)); [lia | reflexivity].
Qed.

Lemma frame_sync_true (b1 : byte) (rest : bytes) (w : world) :
  N.land (Byte.to_N b1) 0xE0 = 0xE0%N ->
  frame_sync (xff :: b1 :: rest) w = (inr true, w).
Proof.
  intros Hb. unfold frame_sync. cbn [length Nat.leb negb getitem lookup list_lookup].
  rewrite bind_lift_inr. cbn [Byte.to_N N.eqb Pos.eqb negb]. rewrite bind_lift_inr.
  rewrite Hb. reflexivity.
Qed.

Lemma detect_format_frame_sync (b1 b2 : byte) (rest : bytes) (w : world) :
  N.land (Byte.to_N b1) 0xE0 = 0xE0%N ->
  detect_format (xff :: b1 :: b2 :: rest) w =
    (inr (Some "mp3"), says w [DetectedFrameSync]).
Proof.
  intros Hb. unfold detect_format. cbn [length Nat.leb take].
  rewrite bool_decide_eq_false_2 by (unfold b_ID3; cbn; intros [=]).
  rewrite (bind_run _ _ _ _ _ (frame_sync_true b1 (b2 :: rest) w Hb)).
  reflexivity.
Qed.

Lemma classify_detected_mp3 (negotiated : string) (message : bytes) (l : line) (w : world) :
  (forall w, detect_format message w = (inr (Some "mp3"), says w [l])) ->
  classify (JStr negotiated) message w =
    (inr (true, false),
     says w (l :: if String.eqb "mp3" (lower negotiated) then []
                  else [FormatMismatch "mp3" (JStr negotiated); Tip "mp3"])).
Proof.
  intros Hd. unfold classify. cbn [str_lower]. rewrite !bind_lift_inr.
  rewrite (bind_run _ _ _ _ _ (Hd w)). rewrite bind_lift_inr.
  destruct (String.eqb_spec "mp3" (lower negotiated)) as [<-|Hne]; cbn [negb].
  - reflexivity.
  - rewrite !bind_print, !says_says. reflexivity.
Qed.

(** An MPEG frame sync at the head of a payload of three bytes or more is
    detected whatever was negotiated. *)
Lemma classify_frame_sync (negotiated : string) (b1 b2 : byte) (rest : bytes) (w : world) :
  N.land (Byte.to_N b1) 0xE0 = 0xE0%N ->
  (classify (JStr negotiated) (xff :: b1 :: b2 :: rest) w).1 = inr (true, false).
Proof.
  intros Hb. rewrite (classify_detected_mp3 _ _ DetectedFrameSync); [reflexivity|].
  intros w'. apply detect_format_frame_sync, Hb.
Qed.

(** An Ogg container is taken for Opus whatever was negotiated. *)
Lemma classify_OggS (negotiated : string) (rest : bytes) (w : world) :
  (classify (JStr negotiated) (b_OggS ++ rest) w).1 = inr (false, true).
Proof.
  assert (Hd : forall w', detect_format (b_OggS ++ rest) w' =
                 (inr (Some "opus"), says w' [DetectedOgg])) by reflexivity.
  unfold classify. cbn [str_lower]. rewrite !bind_lift_inr.
  rewrite (bind_run _ _ _ _ _ (Hd w)). rewrite bind_lift_inr.
  destruct (String.eqb_spec "opus" (lower negotiated)) as [<-|Hne]; cbn [negb].
  - reflexivity.
  - rewrite !bind_print. reflexivity.
Qed.

(** What is done with a chunk classified MP3. *)
Lemma handle_binary_mp3 (negotiated : string) (message : bytes) (w : world) :
  (classify (JStr negotiated) message w).1 = inr (true, false) ->
  exists ls,
    handle_binary (JStr negotiated) message w =
      (inr tt,
       with_files (<["response.mp3" := message]> (files w))
         (with_trace
            (trace w ++ (Say <$> ReceivedAudio (length message) :: ls) ++
             [FileWrite "response.mp3" message; Say (SavedMP3 "response.mp3");
              Say HowToPlayMP3]) w)).
Proof.
  intros Hc. destruct (classify_anywhere _ _ _ _ Hc) as (ls & Hany).
  exists ls. unfold handle_binary. rewrite bind_print.
  rewrite (bind_run _ _ _ _ _ (Hany _)). rewrite says_says.
  cbn [fst snd render app]. world_eq.
Qed.

(** What is done with a chunk classified Opus that the decoder refuses. *)
Lemma handle_binary_opus_refused (negotiated : string) (message : bytes)
    (e : exn) (w : world) :
  (classify (JStr negotiated) message w).1 = inr (false, true) ->
  (opus_decode (decoder w) message frame_size).1 = inl e ->
  exists ls,
    handle_binary (JStr negotiated) message w =
      (inr tt,
       with_files (<["response_unknown.bin" := message]> (files w))
         (with_decoder (opus_decode (decoder w) message frame_size).2
            (with_trace
               (trace w ++ (Say <$> ReceivedAudio (length message) :: ls) ++
                [OpusDecode message; Say (ErrorDecodingOpus e);
                 Say (AudioLength (length message));
                 Say (First10Bytes (hex (take 10 message)));
                 FileWrite "response_unknown.bin" message; Say SavedUnknown]) w))).
Proof.
  intros Hc Hd. destruct (classify_anywhere _ _ _ _ Hc) as (ls & Hany).
  exists ls. unfold handle_binary. rewrite bind_print.
  rewrite (bind_run _ _ _ _ _ (Hany _)). rewrite says_says.
  cbn [fst snd render app]. unfold try_except, decode, bind at 1.
  change (decoder (says w (ReceivedAudio (length message) :: ls))) with (decoder w).
  destruct (opus_decode (decoder w) message frame_size) as [r st].
  cbn [fst snd] in *. subst r. world_eq.
Qed.

End BinaryChunks.

(** *** Claims on the receive task *)

Section ReceiveClaims.
Context `{Collaborators}.

(** C1. A binary message that begins with the three bytes [ID3] is classified
    MP3 whatever encoding was negotiated. It is written to [response.mp3]
    and the decoder is not called; when the negotiated encoding (lowercased)
    is not ["mp3"], the mismatch warning and its tip are printed first. *)
Theorem id3_chunk_is_saved_as_mp3 (negotiated : string) (rest : bytes) (w : world) :
  let message := b_ID3 ++ rest in
  let disagrees := negb (String.eqb "mp3" (lower negotiated)) in
  (classify (JStr negotiated) message w).1 = inr (true, false) /\
  handle_binary (JStr negotiated) message w =
    (inr tt,
     with_files (<["response.mp3" := message]> (files w))
       (with_trace
          (trace w ++
           [Say (ReceivedAudio (length message)); Say DetectedID3] ++
           (if disagrees
            then [Say (FormatMismatch "mp3" (JStr negotiated)); Say (Tip "mp3")]
            else []) ++
           [FileWrite "response.mp3" message; Say (SavedMP3 "response.mp3");
            Say HowToPlayMP3]) w)).
Proof.
  intros message disagrees.
  assert (Hc : forall w', classify (JStr negotiated) message w' =
      (inr (true, false),
       says w' (DetectedID3 :: if String.eqb "mp3" (lower negotiated) then []
                else [FormatMismatch "mp3" (JStr negotiated); Tip "mp3"]))).
  { intros w'. apply classify_detected_mp3. intros w''. apply detect_format_ID3. }
  split; [rewrite Hc; reflexivity|].
  unfold handle_binary. rewrite bind_print, (bind_run _ _ _ _ _ (Hc _)).
  rewrite says_says. subst disagrees.
  destruct (String.eqb "mp3" (lower negotiated)); cbn [fst snd render app negb];
    world_eq.
Qed.

(** C4, at the input where the code departs from it. The two bytes
    [0xFF 0xFB] pass the frame-sync test of line 252, yet, being fewer than
    three, they are never put to it (line 245): with ["opus"] negotiated the
    chunk is classified Opus, and handed to the decoder. *)
Theorem frame_sync_of_two_bytes_is_missed (w : world) :
  frame_sync [xff; xfb] w = (inr true, w) /\
  classify (JStr "opus") [xff; xfb] w = (inr (false, true), w) /\
  exists pre,
    trace (handle_binary (JStr "opus") [xff; xfb] w).2 =
      trace w ++ [Say (ReceivedAudio 2); OpusDecode [xff; xfb]] ++ pre.
Proof.
  assert (Hc : forall w', classify (JStr "opus") [xff; xfb] w' = (inr (false, true), w'))
    by reflexivity.
  split; [reflexivity|]. split; [apply Hc|].
  unfold handle_binary. rewrite bind_print, (bind_run _ _ _ _ _ (Hc _)).
  cbn [fst snd render].
  assert (Ht : trace (says w [ReceivedAudio (length [xff; xfb])]) =
               trace w ++ [Say (ReceivedAudio 2)]) by reflexivity.
  revert Ht. generalize (says w [ReceivedAudio (length [xff; xfb])]). intros w2 Ht.
  unfold try_except, decode, play, open_write, bind, emit, failing, print, lift.
  rewrite open_wb_unknown.
  destruct (opus_decode (decoder w2) [xff; xfb] frame_size) as [[e|pcm] st].
  - cbn. rewrite Ht, <- !app_assoc. eexists. reflexivity.
  - cbn. destruct (output_write pcm); cbn; rewrite Ht, <- !app_assoc;
      eexists; reflexivity.
Qed.


(** C8. A chunk classified Opus that the decoder refuses does not end the
    session: the error, the length and the first ten bytes in hexadecimal
    are printed, the chunk is written to [response_unknown.bin], the flag
    stays clear and the loop goes on with the next arrival. *)
Theorem opus_decode_failure_is_absorbed (negotiated : string) (message : bytes)
    (e : exn) (rest : list (outcome ws_message)) (w : world) :
  (classify (JStr negotiated) message w).1 = inr (false, true) ->
  (opus_decode (decoder w) message frame_size).1 = inl e ->
  stop w = false ->
  exists w1 pre,
    deliver (JStr negotiated) (inr (Binary message) :: rest)
      (with_recv_task Waiting w) = deliver (JStr negotiated) rest w1 /\
    stop w1 = false /\ recv_task w1 = Waiting /\
    files w1 = <["response_unknown.bin" := message]> (files w) /\
    trace w1 =
      pre ++
      [OpusDecode message; Say (ErrorDecodingOpus e);
       Say (AudioLength (length message));
       Say (First10Bytes (hex (take 10 message)));
       FileWrite "response_unknown.bin" message; Say SavedUnknown].
Proof.
  intros Hc Hd Hstop.
  assert (Hc' : (classify (JStr negotiated) message (with_recv_task Waiting w)).1 =
                inr (false, true)).
  { destruct (classify_anywhere _ _ _ _ Hc) as (ls & ->). reflexivity. }
  destruct (handle_binary_opus_refused negotiated message e
              (with_recv_task Waiting w) Hc' Hd) as (ls & Hh).
  eexists _, _. rewrite deliver_waiting by reflexivity.
  rewrite receive_iteration_binary, Hh.
  cbn [stop with_files with_decoder with_trace with_recv_task files trace recv_task].
  rewrite Hstop. split; [reflexivity|]. split; [exact Hstop|].
  split; [reflexivity|]. split; [reflexivity|].
  cbn [trace with_files with_decoder with_trace with_recv_task].
  rewrite app_assoc. reflexivity.
Qed.

(** C9. Each chunk classified MP3 replaces the contents of [response.mp3]:
    after several such chunks the file holds the latest one alone. *)
Theorem mp3_file_holds_latest_chunk (negotiated : string) (earlier : list bytes)
    (latest : bytes) (w : world) :
  Forall (λ m, (classify (JStr negotiated) m w).1 = inr (true, false))
    (earlier ++ [latest]) ->
  stop w = false ->
  let w' :=
    deliver (JStr negotiated) ((λ m, inr (Binary m)) <$> (earlier ++ [latest]))
      (with_recv_task Waiting w) in
  files w' !! "response.mp3" = Some latest /\ recv_task w' = Waiting.
Proof.
  intros Hall Hstop. cbv zeta.
  assert (Hany : Forall (λ m, forall w', (classify (JStr negotiated) m w').1 = inr (true, false))
                   (earlier ++ [latest])).
  { eapply Forall_impl; [exact Hall|]. intros m Hm w'.
    destruct (classify_anywhere _ _ _ _ Hm) as (ls & Hls). rewrite Hls. reflexivity. }
  clear Hall.
  assert (Hgen : forall w0, stop w0 = false -> recv_task w0 = Waiting ->
            let w' := deliver (JStr negotiated)
                        ((λ m, inr (Binary m)) <$> (earlier ++ [latest])) w0 in
            files w' !! "response.mp3" = Some latest /\ recv_task w' = Waiting).
  { induction earlier as [|m earlier IH]; intros w0 Hs Ht; cbv zeta.
    - cbn [app] in Hany. apply Forall_cons in Hany as [Hm _].
      destruct (handle_binary_mp3 negotiated latest w0 (Hm w0)) as (ls & Hh).
      cbn [app fmap list_fmap]. rewrite deliver_waiting by exact Ht.
      rewrite receive_iteration_binary, Hh.
      cbn [stop with_files with_trace]. rewrite Hs. cbn [deliver files with_files with_trace recv_task].
      split; [apply lookup_insert_eq | exact Ht].
    - cbn [app] in Hany. apply Forall_cons in Hany as [Hm Hrest].
      destruct (handle_binary_mp3 negotiated m w0 (Hm w0)) as (ls & Hh).
      cbn [app fmap list_fmap]. rewrite deliver_waiting by exact Ht.
      rewrite receive_iteration_binary, Hh.
      cbn [stop with_files with_trace]. rewrite Hs.
      apply (IH Hrest); assumption. }
  apply Hgen; [exact Hstop | reflexivity].
Qed.

End ReceiveClaims.

(** *** The send task *)

Section SendTask.
Context `{Collaborators}.

Lemma sent_emit_other (e : event) (w : world) :
  match e with WsSend _ => False | _ => True end ->
  sent (with_trace (trace w ++ [e]) w) = sent w.
Proof.
  intros He. rewrite sent_app_trace. destruct e; try contradiction; apply app_nil_r.
Qed.

(** A turn of the receive task touches neither the encoder, nor the clock,
    nor what has been sent. *)
Lemma receive_except_frame e w :
  encoder (receive_except e w).2 = encoder w /\
  clock (receive_except e w).2 = clock w /\
  sent (receive_except e w).2 = sent w.
Proof.
  rewrite receive_except_run. cbn [snd]. repeat split.
  change (sent (with_stop true ?x)) with (sent x).
  rewrite sent_app_trace. cbn. apply app_nil_r.
Qed.

Lemma deliver_frame saf arrivals w :
  encoder (deliver saf arrivals w) = encoder w /\
  clock (deliver saf arrivals w) = clock w /\
  sent (deliver saf arrivals w) = sent w.
Proof.
  revert w. induction arrivals as [|a rest IH]; intros w; [cbn; auto|].
  cbn [deliver]. destruct (recv_task w); auto.
  destruct (keeps_receive_iteration saf a w) as (_ & He & Hc & _ & Hs).
  destruct (receive_iteration saf a w) as [[e|[]] w1]; cbn [snd] in *.
  - destruct (receive_except_frame e w1) as (He' & Hc' & Hs').
    change (sent (with_recv_task Finished ?x)) with (sent x).
    cbn [encoder clock with_recv_task]. repeat split; congruence.
  - destruct (stop w1).
    + change (sent (with_recv_task Finished ?x)) with (sent x). cbn. auto.
    + destruct (IH w1) as (? & ? & ?). repeat split; congruence.
Qed.

Lemma receive_messages_frame saf arrivals w :
  encoder (receive_messages saf arrivals w) = encoder w /\
  clock (receive_messages saf arrivals w) = clock w /\
  sent (receive_messages saf arrivals w) = sent w.
Proof.
  unfold receive_messages.
  destruct (deliver_frame saf arrivals (start_recv w)) as (-> & -> & ->).
  unfold start_recv. destruct (recv_task w); auto.
Qed.

(** Arrivals that are not [session_ending] leave a clear flag clear. *)
Lemma deliver_benign saf arrivals w :
  Forall (λ a, session_ending saf a = false) arrivals ->
  stop w = false -> stop (deliver saf arrivals w) = false.
Proof.
  intros Hall. revert w. induction Hall as [|a rest Ha _ IH]; intros w Hw; [exact Hw|].
  destruct (recv_task w) eqn:Ht; try (cbn [deliver]; rewrite Ht; exact Hw).
  destruct (deliver_absorbed saf a rest w Ht Ha) as (w1 & _ & Hs & _ & _ & _ & _ & ->).
  rewrite Hw. apply IH. congruence.
Qed.

Lemma receive_messages_benign saf arrivals w :
  Forall (λ a, session_ending saf a = false) arrivals ->
  stop w = false -> stop (receive_messages saf arrivals w) = false.
Proof.
  intros Hall Hw. apply deliver_benign; [exact Hall|].
  unfold start_recv. destruct (recv_task w); exact Hw.
Qed.

Lemma transmit_except_sent e w : sent (transmit_except e w).2 = sent w.
Proof.
  unfold transmit_except, bind, print, emit, stop_set.
  destruct (is_connection_closed e); cbn [snd];
    change (sent (with_stop true ?x)) with (sent x);
    rewrite sent_emit_other by exact I; cbn [with_trace trace];
    apply sent_emit_other; exact I.
Qed.

(** What the [for] loop sends is [transmitted]: it depends on the frames, on
    the encoder and on the failures of [send], and on nothing else. *)
Lemma transmit_sent saf steps frames : forall i w,
  sent (transmit saf steps i frames w) =
    sent w ++ (Binary <$> transmitted steps i (encoder w) frames).
Proof.
  induction frames as [|pcm rest IH]; intros i w.
  - cbn. rewrite app_nil_r. reflexivity.
  - cbn [transmit transmitted]. unfold transmit_body, encode, bind.
    destruct (opus_encode (encoder w) pcm frame_size) as [[e|packet] st].
    + rewrite transmit_except_sent. cbn [fmap list_fmap]. rewrite app_nil_r.
      change (sent (with_encoder st ?x)) with (sent x).
      apply sent_emit_other. exact I.
    + unfold ws_send. destruct (send_failure (steps i)) as [e|].
      * unfold raise. rewrite transmit_except_sent. cbn [fmap list_fmap].
        rewrite app_nil_r. change (sent (with_encoder st ?x)) with (sent x).
        apply sent_emit_other. exact I.
      * cbn [emit yield_to_recv]. rewrite IH.
        match goal with |- context [receive_messages saf ?a ?x] =>
          destruct (receive_messages_frame saf a x) as (-> & _ & ->) end.
        cbn [encoder with_trace with_encoder].
        change (sent (with_trace ?t (with_encoder st ?x))) with (sent (with_trace t x)).
        unfold sent. cbn [trace with_trace with_encoder]. rewrite !omap_app.
        cbn. rewrite app_nil_r, <- app_assoc. reflexivity.
Qed.

(** [transmitted] is an initial stretch of the sequential encoding. *)
Lemma transmitted_encode_seq steps frames : forall i st,
  exists k, (k <= length frames)%nat /\
    transmitted steps i st frames = encode_seq st (take k frames) /\
    length (encode_seq st (take k frames)) = k.
Proof.
  induction frames as [|pcm rest IH]; intros i st.
  - exists 0%nat. cbn. auto.
  - cbn [transmitted].
    destruct (opus_encode st pcm frame_size) as [[e|packet] st'] eqn:He.
    + exists 0%nat. cbn. split; [lia | auto].
    + destruct (send_failure (steps i)).
      * exists 0%nat. cbn. split; [lia | auto].
      * destruct (IH (S i) st') as (k & Hk & Ht & Hl).
        exists (S k). cbn [take length encode_seq]. rewrite He, Ht.
        cbn [length]. split; [lia | auto].
Qed.

Lemma transmitted_all steps frames : forall i st,
  (forall j, send_failure (steps j) = None) ->
  length (encode_seq st frames) = length frames ->
  transmitted steps i st frames = encode_seq st frames.
Proof.
  induction frames as [|pcm rest IH]; intros i st Hs Hl; [reflexivity|].
  cbn [transmitted encode_seq] in *. rewrite Hs.
  destruct (opus_encode st pcm frame_size) as [[e|packet] st']; [discriminate|].
  cbn [length] in Hl. rewrite IH; auto.
Qed.

End SendTask.

Section Capture.
Context `{Collaborators}.

(** One iteration of the capture loop in which the microphone delivers a
    frame and nothing that arrives ends the session: the frame is appended,
    the flag stays clear. *)
Lemma capture_step_calm saf t frames last w :
  calm saf t -> stop w = false ->
  exists last' w',
    capture_step saf t frames last w = ((frames ++ [pcm_of t], last'), w') /\
    stop w' = false /\ clock w' = clock w + read_ms t + yield_ms t /\
    encoder w' = encoder w /\ sent w' = sent w.
Proof.
  intros ((pcm & ovf & Hr) & Hben) Hw.
  unfold capture_step, capture_body, pcm_of. rewrite Hr.
  unfold bind, advance, lift, wall_time, yield_to_recv, ret, print, emit.
  destruct (ovf && _); cbn [fst snd];
    match goal with |- context [receive_messages saf ?a ?x] =>
      destruct (receive_messages_frame saf a x) as (He & Hc & Hs);
      pose proof (receive_messages_benign saf a x Hben Hw) as Hb;
      set (X := receive_messages saf a x) in *
    end;
    eexists;
    exists (with_clock (clock X + yield_ms t) X);
    (split; [reflexivity|]);
    cbn [stop clock encoder with_clock with_trace] in *;
    change (sent (with_clock (clock X + yield_ms t) X)) with (sent X);
    rewrite Hb, Hc, He, Hs; repeat split; try lia.
  rewrite sent_emit_other by exact I. reflexivity.
Qed.





(** The buffer grows by the frames read, in the order of the reads. *)
Lemma capture_step_frames saf t frames last w :
  (capture_step saf t frames last w).1.1 =
    frames ++ from_option (λ pcm, [pcm]) [] (read_ok t).
Proof.
  unfold capture_step, capture_body, read_ok.
  unfold bind, advance, lift, wall_time, yield_to_recv, ret, print, emit.
  destruct (mic_read t) as [e|[pcm ovf]]; cbn [fst snd from_option].
  - rewrite app_nil_r. reflexivity.
  - destruct (ovf && _); reflexivity.
Qed.

Lemma capture_appends_in_read_order saf start_ts : forall script frames last w frames' w',
  capture saf start_ts script frames last w = Some (frames', w') ->
  exists k, frames' = frames ++ omap read_ok (take k script).
Proof.
  induction script as [|t script IH]; intros frames last w frames' w' Hc;
    cbn [capture] in Hc;
    destruct (negb (stop w) && within_recording start_ts (clock w));
    try discriminate.
  - injection Hc as <- _. exists 0%nat. cbn. rewrite app_nil_r. reflexivity.
  - pose proof (capture_step_frames saf t frames last w) as Hs.
    destruct (capture_step saf t frames last w) as [[frames1 last1] w1].
    cbn [fst] in Hs. subst frames1.
    destruct (IH _ _ _ _ _ Hc) as (k & ->). exists (S k).
    cbn [take omap list_omap]. destruct (read_ok t); cbn [from_option];
      rewrite <- app_assoc; reflexivity.
  - injection Hc as <- _. exists 0%nat. cbn. rewrite app_nil_r. reflexivity.
Qed.

End Capture.

(** *** Claims on the send task *)

Section SendClaims.
Context `{Collaborators}.


(** C6. Whatever frames were captured, what the task transmits is the
    encoding of an initial stretch of them, frame by frame in the order of
    capture, each packet sent once; the stretch is the whole sequence when
    no encoding and no send raises. *)
Theorem frames_are_transmitted_in_capture_order (saf : json)
    (steps : nat -> send_step) (frames : list bytes) (w : world) :
  let w' := transmit saf steps 0 frames w in
  exists k,
    (k <= length frames)%nat /\
    sent w' = sent w ++ (Binary <$> encode_seq (encoder w) (take k frames)) /\
    length (encode_seq (encoder w) (take k frames)) = k /\
    ((forall i, send_failure (steps i) = None) ->
     length (encode_seq (encoder w) frames) = length frames ->
     k = length frames).
Proof.
  cbv zeta. rewrite transmit_sent.
  destruct (transmitted_encode_seq steps frames 0 (encoder w)) as (k & Hk & Ht & Hl).
  exists k. rewrite Ht. repeat split; auto.
  intros Hs Hall. rewrite (transmitted_all steps frames 0 (encoder w) Hs Hall) in Ht.
  rewrite <- Hl, <- Ht. exact Hall.
Qed.

(** C10, amended. The burst never reads the cancellation flag: whether it is
    set beforehand, or by the receive task while a send is suspended, every
    buffered frame is encoded and transmitted, unless an encoding or a send
    raises. *)
Theorem burst_ignores_the_flag (saf : json) (steps : nat -> send_step)
    (frames : list bytes) (flag : bool) (w : world) :
  (forall i, send_failure (steps i) = None) ->
  length (encode_seq (encoder w) frames) = length frames ->
  sent (transmit saf steps 0 frames (with_stop flag w)) =
    sent w ++ (Binary <$> encode_seq (encoder w) frames).
Proof.
  intros Hs Hall. rewrite transmit_sent.
  change (encoder (with_stop flag w)) with (encoder w).
  rewrite transmitted_all by assumption. reflexivity.
Qed.

End SendClaims.

(** *** Claims on the teardown and on the handshake *)

Section SessionClaims.
Context `{Collaborators}.


(** C7, amended. The teardown runs its steps in order, each at most once:
    the flag is set and the channel closed in every case; the receive task
    is awaited and the output device stopped exactly once when closing the
    channel did not raise, and not at all when it did; the device is
    released exactly once when neither closing the channel nor stopping the
    device raised, and not at all otherwise. So every step executes exactly
    once when no earlier step raises. *)
Theorem teardown_runs_until_a_step_raises (w : world) :
  let w' := (teardown w).2 in
  stop w' = true /\
  trace w' = trace w ++ teardown_trace /\
  executions SetFlag teardown_trace = 1%nat /\
  executions CloseChannel teardown_trace = 1%nat /\
  executions AwaitReceiveTask teardown_trace = ran_once (bool_decide (is_Some ws_close)) /\
  executions StopOutput teardown_trace = ran_once (bool_decide (is_Some ws_close)) /\
  executions ReleaseOutput teardown_trace =
    ran_once (bool_decide (is_Some ws_close) || bool_decide (is_Some output_stop)).
Proof.
  cbv zeta. unfold teardown, teardown_trace, bind, stop_set, emit, failing, print.
  destruct ws_close as [e1|]; [cbn; rewrite <- ?app_assoc; auto 10|].
  destruct output_stop as [e2|]; [cbn; rewrite <- ?app_assoc; auto 10|].
  destruct output_close as [e3|]; cbn; rewrite <- ?app_assoc; auto 10.
Qed.

Lemma hello_audio_format (audio_format : string) :
  hello audio_format !! "audio_format" = Some (JStr audio_format).
Proof. reflexivity. Qed.

(** C2. When the reply to the Hello message is an object without the field
    [audio_format], the negotiated encoding is the one the Hello message
    requested. *)
Theorem negotiated_encoding_falls_back (audio_format : string)
    (response : ws_message) (fields : gmap string json) (w : world) :
  loads response = inr (JObj fields) ->
  fields !! "audio_format" = None ->
  exists session_id w',
    handshake audio_format None (inr response) w =
      (inr (session_id, JStr audio_format), w').
Proof.
  intros Hl Hf. unfold handshake. cbn [ws_send].
  unfold bind at 1. cbn [emit].
  unfold dict_getitem. rewrite hello_audio_format. rewrite bind_lift_inr, bind_print.
  rewrite bind_lift_inr, Hl, bind_lift_inr.
  cbn [dict_get dict_get_default]. rewrite bind_lift_inr.
  rewrite hello_audio_format, Hf. cbn [default].
  destruct (negb (eq_str (default JNull (fields !! "type")) "hello"));
    unfold bind, lift, print, emit, ret; cbn; eauto.
Qed.

End SessionClaims.

(** * The claims on concrete sessions

    Runs of the client in the environment [Stub.collaborators]. *)

Section Runs.
Import Stub.
#[local] Existing Instance collaborators.

Let w0 : world := start (C := collaborators) 0%nat 0%nat.

(** Scenario A, and the instance of C2 at a request for ["opus"]: the reply
    [{"type":"hello","session_id":"abc"}] names no encoding. *)
Lemma fallback_to_opus :
  exists session_id w',
    handshake "opus" None (inr (Text hello_reply_text)) w0 =
      (inr (session_id, JStr "opus"), w').
Proof.
  apply (negotiated_encoding_falls_back "opus" (Text hello_reply_text)
           (list_to_map [("type", JStr "hello"); ("session_id", JStr "abc")]) w0).
  - reflexivity.
  - reflexivity.
Defined.


(** The stub decoder refuses a one-byte packet: an instance of C8. *)
Lemma short_packet_is_absorbed :
  exists w1 pre,
    deliver (JStr "opus") [inr (Binary [x01]); inr (Text stt_text)]
      (with_recv_task Waiting w0) =
    deliver (JStr "opus") [inr (Text stt_text)] w1 /\
    stop w1 = false /\ recv_task w1 = Waiting /\
    files w1 = <["response_unknown.bin" := [x01]]> (files w0) /\
    trace w1 =
      pre ++
      [OpusDecode [x01]; Say (ErrorDecodingOpus (OpusError (-4)));
       Say (AudioLength (length [x01]));
       Say (First10Bytes (hex (take 10 [x01])));
       FileWrite "response_unknown.bin" [x01]; Say SavedUnknown].
Proof.
  apply (opus_decode_failure_is_absorbed "opus" [x01] (OpusError (-4))
           [inr (Text stt_text)] w0).
  - reflexivity.
  - reflexivity.
  - reflexivity.
Defined.

(** Two chunks with an ID3 tag in a row, ["opus"] negotiated: an instance
    of C9. *)
Lemma second_chunk_replaces_first :
  let w' := deliver (JStr "opus")
              ((λ m, inr (Binary m)) <$> ([b_ID3 ++ [x01; x02]] ++ [b_ID3 ++ [x03]]))
              (with_recv_task Waiting w0) in
  files w' !! "response.mp3" = Some (b_ID3 ++ [x03]) /\ recv_task w' = Waiting.
Proof.
  apply (mp3_file_holds_latest_chunk "opus" [b_ID3 ++ [x01; x02]] (b_ID3 ++ [x03]) w0).
  - repeat constructor.
  - reflexivity.
Defined.



(** C10 as stated fails: no send raises, yet the second frame is never
    transmitted, because the encoder refuses the first one. *)
Lemma refused_frame_ends_the_burst :
  let w' := transmit (JStr "opus") (λ _, quiet_step) 0 [[]; [x01; x00]] w0 in
  send_failure quiet_step = None /\
  sent w' = [] /\
  trace w' = [OpusEncode []; Say (SendAudioError (OpusError (-1))); StopSet].
Proof. cbv zeta. repeat split; vm_compute; reflexivity. Qed.

(** While the first packet is being sent the receive task sets the flag;
    both frames are transmitted all the same: an instance of the amended
    C10. *)
Lemma burst_goes_on_after_the_flag_is_set :
  sent (transmit (JStr "opus") (λ _, garbled_step) 0 [[x01; x00]; [x02; x00]]
          (with_stop false w0)) =
    sent w0 ++ (Binary <$> encode_seq (encoder w0) [[x01; x00]; [x02; x00]]).
Proof.
  apply (burst_ignores_the_flag (JStr "opus") (λ _, garbled_step)
           [[x01; x00]; [x02; x00]] false w0).
  - reflexivity.
  - reflexivity.
Defined.

(** In that run the flag is set when the burst ends, and two packets are on
    the channel. *)
Example flag_is_set_during_the_burst :
  let w' := transmit (JStr "opus") (λ _, garbled_step) 0 [[x01; x00]; [x02; x00]] w0 in
  stop w' = true /\ sent w' = [Binary [x00; x01]; Binary [x01; x02]].
Proof. cbv zeta. split; vm_compute; reflexivity. Qed.

(** Scenario D: the text [{"type":"stt","text":"hello"}] is rendered as a
    transcription, and the task stays in its loop. *)
Example transcription_is_rendered :
  let w' := deliver (JStr "mp3") [inr (Text stt_text)]
              (start_waiting (C := collaborators) 0%nat 0%nat) in
  trace w' = [Say (Transcription (JStr "hello"))] /\
  stop w' = false /\ recv_task w' = Waiting.
Proof. cbv zeta. repeat split; vm_compute; reflexivity. Qed.

(** Scenario E: a session in which the server never closes the channel. One
    frame is captured and sent, the wait for the receive task times out, and
    the teardown runs to its end. *)
Example session_times_out :
  let long_tick := Tick (inr ([x01; x00], false)) 5000 [inr (Text stt_text)] 0 in
  option_map (λ r, (r.1, trace r.2, recv_task r.2))
    (robot_client "mp3" None (inr (Text hello_reply_text)) [long_tick]
       (λ _, quiet_step) [] w0) =
  Some (inr tt,
        [WsSend (Text "{}"); Say (SentHello (JStr "mp3"));
         Say (SessionId (JStr "abc")); Say (ServerWillSend (JStr "mp3"));
         Say (Transcription (JStr "hello")); Say (SendingFrames 1 20);
         OpusEncode [x01; x00]; WsSend (Binary [x00; x01]);
         Say FinishedSending; CancelRecv; Say NoResponseWithin300s;
         StopSet; WsClose; GatherRecv; OutputStop; OutputClose;
         Say ConnectionClosedDone; WsContextExit],
        Cancelled).
Proof. vm_compute. reflexivity. Qed.

Example hex_of_three_bytes : hex [xff; x0a; x10] = "ff0a10".
Proof. reflexivity. Qed.

Example lower_of_mixed_case : lower "MP3 Opus" = "mp3 opus".
Proof. reflexivity. Qed.

End Runs.

(** C7 as stated fails: when closing the channel raises, the receive task is
    not awaited and the output device is neither stopped nor released. *)
Lemma failed_close_skips_the_rest :
  let done := trace (teardown (H := Stub.closing_fails)
                       (Stub.start (C := Stub.closing_fails) 0%nat 0%nat)).2 in
  done = [StopSet; WsClose] /\
  executions AwaitReceiveTask done = 0%nat /\
  executions StopOutput done = 0%nat /\
  executions ReleaseOutput done = 0%nat.
Proof. cbv zeta. repeat split; vm_compute; reflexivity. Qed.

(** * Further properties of the client *)

(** ** Classification of binary chunks (lines 239-270) *)

Section Classification.
Context `{Collaborators}.

Lemma lower_ascii_idempotent c : lower_ascii (lower_ascii c) = lower_ascii c.
Proof. destruct c as [[] [] [] [] [] [] [] []]; reflexivity. Qed.

Lemma lower_idempotent s : lower (lower s) = lower s.
Proof.
  induction s as [|c s IH]; [reflexivity|].
  cbn [lower]. rewrite lower_ascii_idempotent, IH. reflexivity.
Qed.

(** X1: an Ogg container at the head of the payload makes the chunk Opus,
    whatever was negotiated; the warning is printed when the negotiated
    encoding, lowercased, is not ["opus"]. *)
Theorem ogg_chunk_is_classified_opus (negotiated : string) (rest : bytes) (w : world) :
  classify (JStr negotiated) (b_OggS ++ rest) w =
    (inr (false, true),
     says w (DetectedOgg ::
             if String.eqb "opus" (lower negotiated) then []
             else [FormatMismatch "opus" (JStr negotiated); Tip "opus"])).
Proof.
  rewrite (classify_run negotiated (b_OggS ++ rest) (Some "opus") [DetectedOgg])
    by reflexivity.
  cbn [flags_of mismatch_lines app].
  destruct (String.eqb_spec "opus" (lower negotiated)) as [<-|]; reflexivity.
Qed.

(** X2: an MPEG frame sync at the head of a payload of three bytes or more
    makes the chunk MP3, whatever was negotiated. *)
Theorem frame_sync_chunk_is_classified_mp3 (negotiated : string) (b1 b2 : byte)
    (rest : bytes) (w : world) :
  N.land (Byte.to_N b1) 0xE0 = 0xE0%N ->
  classify (JStr negotiated) (xff :: b1 :: b2 :: rest) w =
    (inr (true, false),
     says w (DetectedFrameSync ::
             if String.eqb "mp3" (lower negotiated) then []
             else [FormatMismatch "mp3" (JStr negotiated); Tip "mp3"])).
Proof.
  intros Hb.
  rewrite (classify_run negotiated _ (Some "mp3") [DetectedFrameSync])
    by (intros w'; apply detect_format_frame_sync, Hb).
  cbn [flags_of mismatch_lines app].
  destruct (String.eqb_spec "mp3" (lower negotiated)) as [<-|]; reflexivity.
Qed.

(** X3: a payload of fewer than three bytes is not examined: the negotiated
    encoding alone, lowercased, decides, and nothing is printed. *)
Theorem short_chunk_follows_negotiation (negotiated : string) (message : bytes)
    (w : world) :
  (length message < 3)%nat ->
  classify (JStr negotiated) message w =
    (inr (String.eqb (lower negotiated) "mp3", String.eqb (lower negotiated) "opus"), w).
Proof.
  intros Hlen.
  rewrite (classify_run negotiated message None []).
  - cbn [flags_of mismatch_lines app]. rewrite says_nil. reflexivity.
  - intros w'. rewrite says_nil. apply detect_format_short, Hlen.
Qed.

(** X4: the negotiated encoding is compared without regard to case: the
    flags for [negotiated] are those for its lowercase form. *)
Theorem classification_ignores_case (negotiated : string) (message : bytes) (w : world) :
  (classify (JStr negotiated) message w).1 =
  (classify (JStr (lower negotiated)) message w).1.
Proof.
  destruct (narrates_detect_format message) as (d & ls & Hd).
  rewrite !(classify_run _ message d ls Hd), lower_idempotent. reflexivity.
Qed.

End Classification.

(** ** Handling of binary chunks (lines 235-326) *)

Section ChunkHandling.
Context `{Collaborators}.

Lemma handle_binary_with_flags (negotiated : string) (message : bytes)
    (flags : bool * bool) (w : world) :
  (classify (JStr negotiated) message w).1 = inr flags ->
  exists ls,
    handle_binary (JStr negotiated) message w =
      render (JStr negotiated) message flags.1 flags.2
        (says w (ReceivedAudio (length message) :: ls)).
Proof.
  intros Hc. destruct (classify_anywhere _ _ _ _ Hc) as (ls & Hany).
  exists ls. unfold handle_binary.
  rewrite bind_print, (bind_run _ _ _ _ _ (Hany _)), says_says. reflexivity.
Qed.

(** X5: a chunk classified Opus that decodes and plays is played: the PCM
    goes to the output device, the decoder advances, no file is written. *)
Theorem decoded_chunk_is_played (negotiated : string) (message pcm : bytes)
    (st : decoder_state) (w : world) :
  (classify (JStr negotiated) message w).1 = inr (false, true) ->
  opus_decode (decoder w) message frame_size = (inr pcm, st) ->
  output_write pcm = None ->
  exists ls,
    handle_binary (JStr negotiated) message w =
      (inr tt,
       with_decoder st
         (with_trace
            (trace w ++ (Say <$> ReceivedAudio (length message) :: ls) ++
             [OpusDecode message; OutputWrite pcm; Say PlayingDecodedOpus]) w)).
Proof.
  intros Hc Hd Hw. destruct (handle_binary_with_flags _ _ _ _ Hc) as (ls & ->).
  exists ls. cbn [fst snd render]. unfold try_except, decode, play, bind, emit, failing.
  change (decoder (says w (ReceivedAudio (length message) :: ls))) with (decoder w).
  rewrite Hd. cbn [fst snd]. rewrite Hw. world_eq.
Qed.

(** X6: when the decoder accepts the chunk but the output device refuses the
    PCM, the chunk is treated like one the decoder refused: the error is
    printed, the chunk is written to [response_unknown.bin], and the call
    returns. *)
Theorem playback_failure_is_absorbed (negotiated : string) (message pcm : bytes)
    (st : decoder_state) (e : exn) (w : world) :
  (classify (JStr negotiated) message w).1 = inr (false, true) ->
  opus_decode (decoder w) message frame_size = (inr pcm, st) ->
  output_write pcm = Some e ->
  exists ls,
    handle_binary (JStr negotiated) message w =
      (inr tt,
       with_files (<["response_unknown.bin" := message]> (files w))
         (with_decoder st
            (with_trace
               (trace w ++ (Say <$> ReceivedAudio (length message) :: ls) ++
                [OpusDecode message; OutputWrite pcm; Say (ErrorDecodingOpus e);
                 Say (AudioLength (length message));
                 Say (First10Bytes (hex (take 10 message)));
                 FileWrite "response_unknown.bin" message; Say SavedUnknown]) w))).
Proof.
  intros Hc Hd Hw. destruct (handle_binary_with_flags _ _ _ _ Hc) as (ls & ->).
  exists ls. cbn [fst snd render]. unfold try_except, decode, play, bind, emit, failing.
  change (decoder (says w (ReceivedAudio (length message) :: ls))) with (decoder w).
  rewrite Hd. cbn [fst snd]. rewrite Hw. world_eq.
Qed.

End ChunkHandling.

Section ChunkFootprint.
Context `{Collaborators}.

Lemma chunk_path_fallback (negotiated path : string) :
  open_wb (fallback_name negotiated) = inr path -> chunk_path negotiated path = true.
Proof.
  intros Ho. unfold chunk_path. rewrite Ho, String.eqb_refl, orb_true_r. reflexivity.
Qed.

Lemma chunk_event_write (negotiated : string) (message : bytes) (path : string) :
  chunk_path negotiated path = true ->
  chunk_event negotiated message (FileWrite path message) = true.
Proof.
  intros Hp. cbn [chunk_event]. rewrite Hp, bool_decide_eq_true_2; reflexivity.
Qed.

Lemma chunk_event_decode (negotiated : string) (message : bytes) :
  chunk_event negotiated message (OpusDecode message) = true.
Proof. cbn [chunk_event]. apply bool_decide_eq_true_2. reflexivity. Qed.

Lemma logs_detect_format (negotiated : string) (message : bytes) :
  logs (chunk_event negotiated message) (detect_format message).
Proof. unfold detect_format, frame_sync. repeat logs_step. Qed.

Lemma logs_classify (negotiated : string) (message : bytes) :
  logs (chunk_event negotiated message) (classify (JStr negotiated) message).
Proof.
  unfold classify. cbn [str_lower]. repeat (logs_step || apply logs_detect_format).
Qed.

(** Up to [render]: the chunk is announced and classified. *)
Lemma handle_binary_split (negotiated : string) (message : bytes) (w : world) :
  exists is_mp3 is_opus w1 t,
    entered negotiated is_mp3 is_opus /\
    is_mp3 && is_opus = false /\
    handle_binary (JStr negotiated) message w =
      render (JStr negotiated) message is_mp3 is_opus w1 /\
    accounted w w1 t /\ forallb (chunk_event negotiated message) t = true.
Proof.
  destruct (narrates_detect_format message) as (d & ls & Hd).
  pose proof (detect_format_values _ _ _ _ (Hd w)) as Hv.
  pose proof (classify_run negotiated message d ls Hd) as Hc.
  assert (Hl : logs (chunk_event negotiated message)
                 (bind (print (ReceivedAudio (length message)))
                    (fun _ => classify (JStr negotiated) message))).
  { apply logs_bind; [apply logs_print; reflexivity|]. intros _. apply logs_classify. }
  destruct (Hl w) as (t & Ha & Ht).
  rewrite bind_print, Hc in Ha. cbn [snd] in Ha.
  eexists _, _, _, t. split; [apply flags_of_entered, Hv|].
  split; [apply flags_of_exclusive|]. split; [|split; [exact Ha | exact Ht]].
  unfold handle_binary. rewrite bind_print, (bind_run _ _ _ _ _ (Hc _)). reflexivity.
Qed.

Lemma logs_render (negotiated : string) (message : bytes) (is_mp3 is_opus : bool) :
  entered negotiated is_mp3 is_opus ->
  logs (chunk_event negotiated message) (render (JStr negotiated) message is_mp3 is_opus).
Proof.
  intros He. unfold render. cbn [str_lower str_lower_unicode].
  destruct is_mp3; [|destruct is_opus].
  - rewrite open_write_mp3. repeat logs_step. apply chunk_event_write. reflexivity.
  - repeat logs_step; try apply chunk_event_decode.
    match goal with Ho : open_wb "response_unknown.bin" = inr _ |- _ =>
      rewrite open_wb_unknown in Ho; injection Ho as <- end.
    apply chunk_event_write. reflexivity.
  - logs_step; [logs_step|]. logs_step. rewrite (He eq_refl eq_refl).
    repeat logs_step. apply chunk_event_write, chunk_path_fallback. assumption.
Qed.

Lemma handle_binary_logs (negotiated : string) (message : bytes) (w : world) :
  exists t,
    accounted w (handle_binary (JStr negotiated) message w).2 t /\
    forallb (chunk_event negotiated message) t = true.
Proof.
  destruct (handle_binary_split negotiated message w)
    as (a & b & w1 & t1 & He & _ & -> & Ha1 & Ht1).
  destruct (logs_render negotiated message a b He w1) as (t2 & Ha2 & Ht2).
  exists (t1 ++ t2). split; [eapply accounted_trans; eassumption|].
  rewrite forallb_app, Ht1, Ht2. reflexivity.
Qed.

(** X7: what handling a binary chunk may do. It prints, writes the chunk
    itself to one of three files, calls the decoder on the chunk and plays.
    The second attempt at decoding (lines 307-319) is never made: none of
    its lines is printed. *)
Theorem binary_chunk_footprint (negotiated : string) (message : bytes) (w : world) :
  let w' := (handle_binary (JStr negotiated) message w).2 in
  exists t,
    accounted w w' t /\
    forallb (chunk_event negotiated message) t = true /\
    forallb (λ e, match e with
                  | Say l => negb (second_attempt_line l)
                  | _ => true
                  end) t = true.
Proof.
  cbv zeta. destruct (handle_binary_logs negotiated message w) as (t & Ha & Ht).
  exists t. split; [exact Ha|]. split; [exact Ht|].
  rewrite forallb_forall in *. intros e He. specialize (Ht e He).
  destruct e as [l| | | | | | | | | | | |]; try reflexivity.
  destruct l; try reflexivity; discriminate.
Qed.

Lemma replay_verbatim (P : event -> bool) (message : bytes) t fs path :
  forallb P t = true ->
  (forall p d, P (FileWrite p d) = true -> d = message) ->
  replay t fs !! path = fs !! path \/ replay t fs !! path = Some message.
Proof.
  intros Ht HP. revert fs. induction t as [|e t IH]; intros fs; [left; reflexivity|].
  cbn in Ht. apply andb_true_iff in Ht as [He Ht]. cbn [replay foldl].
  change (foldl _ ?x t) with (replay t x).
  destruct (IH Ht (match e with FileWrite p d => <[p:=d]> fs | _ => fs end)) as [Hi|Hi];
    [|right; exact Hi].
  rewrite Hi. destruct e; auto.
  destruct (decide (path0 = path)) as [->|Hne].
  - right. rewrite lookup_insert_eq. f_equal. eauto.
  - left. apply lookup_insert_ne, Hne.
Qed.

(** X8: handling a binary chunk leaves every file as it was, except that
    one of the three files may come to hold exactly the chunk. *)
Theorem chunk_is_written_verbatim (negotiated : string) (message : bytes)
    (path : string) (w : world) :
  let w' := (handle_binary (JStr negotiated) message w).2 in
  files w' !! path = files w !! path \/
  (files w' !! path = Some message /\ chunk_path negotiated path = true).
Proof.
  cbv zeta. destruct (handle_binary_logs negotiated message w) as (t & (_ & Hf & _) & Ht).
  rewrite Hf.
  destruct (chunk_path negotiated path) eqn:Hp.
  - destruct (replay_verbatim (chunk_event negotiated message) message t (files w) path Ht);
      [|auto|auto].
    intros p d Hd. cbn [chunk_event] in Hd. apply andb_true_iff in Hd as [Hd _].
    apply bool_decide_eq_true_1 in Hd. exact Hd.
  - left. apply (replay_untouched (chunk_event negotiated message)); [exact Ht|].
    intros p d Hd ->. cbn [chunk_event] in Hd. apply andb_true_iff in Hd as [_ Hd].
    congruence.
Qed.


(** X10: a chunk for which neither flag is set goes to the file named after
    the negotiated encoding, lowercased by [str.lower]; the decoder is not
    called. When that name opens, the file it denotes comes to hold the
    chunk and the name is printed; when it does not, the exception of
    [open] leaves the handling, after the line that the format could not be
    determined. *)
Theorem unknown_encoding_is_saved_by_name (negotiated : string) (message : bytes)
    (w : world) :
  (classify (JStr negotiated) message w).1 = inr (false, false) ->
  exists ls,
    let filename := "response." +:+ unicode_lower negotiated in
    handle_binary (JStr negotiated) message w =
      match open_wb filename with
      | inr path =>
          (inr tt,
           with_files (<[path := message]> (files w))
             (with_trace
                (trace w ++ (Say <$> ReceivedAudio (length message) :: ls) ++
                 [Say (CouldNotDetermine (JStr negotiated)); FileWrite path message;
                  Say (SavedAs filename); Say (HowToPlay filename)]) w))
      | inl e =>
          (inl e,
           says w (ReceivedAudio (length message) :: ls ++
                   [CouldNotDetermine (JStr negotiated)]))
      end.
Proof.
  intros Hc.
  destruct (classify_magic negotiated message) as (ls0 & Hm).
  rewrite Hm in Hc. cbn [fst] in Hc. injection Hc as Hf.
  destruct (flags_of_neither _ _ (magic_values message) Hf) as (_ & _ & Ho).
  destruct (handle_binary_magic negotiated message) as (ls & Hh).
  exists ls. cbv zeta. rewrite Hh, Hf. cbn [fst snd].
  rewrite (render_undetermined _ _ _ Ho). unfold fallback_name.
  destruct (open_wb ("response." +:+ unicode_lower negotiated)) as [e|path].
  - rewrite says_says. reflexivity.
  - world_eq.
Qed.

End ChunkFootprint.

(** ** Text messages and the receive loop (lines 226-363) *)

Section ReceiveLoop.
Context `{Collaborators}.

(** X11: a text that is a JSON object only prints: one line for the types
    [stt], [llm], [hello] and [system], with the text, the object or the
    command, and for every other type two lines, the type and the whole
    message. It raises nothing and leaves files, codec and flag alone. *)
Theorem object_text_only_prints (payload : string) (fields : gmap string json)
    (w : world) :
  json_loads payload = inr (JObj fields) ->
  let msg_type := default JNull (fields !! "type") in
  handle_text payload w =
    (inr tt,
     says w
       (if eq_str msg_type "stt" then
          [Transcription (default (JStr "") (fields !! "text"))]
        else if eq_str msg_type "llm" then
          [LLMResponse (default (JStr "") (fields !! "text"))]
        else if eq_str msg_type "hello" then [HelloAgain (JObj fields)]
        else if eq_str msg_type "system" then
          [SystemMessage (default (JStr "") (fields !! "command"))]
        else [UnknownMessageType msg_type; FullMessage (JObj fields)])).
Proof.
  intros Hl. cbv zeta. rewrite (handle_text_object payload fields w Hl). cbv zeta.
  repeat (match goal with |- context [if ?b then _ else _] => destruct b end;
          [apply print_run|]).
  rewrite bind_print, print_run, says_says. reflexivity.
Qed.

(** X12: an object without a [type] is rendered as a message of unknown type
    [None], with the whole payload. *)
Theorem untyped_text_is_rendered_as_unknown (payload : string)
    (fields : gmap string json) (w : world) :
  json_loads payload = inr (JObj fields) ->
  fields !! "type" = None ->
  handle_text payload w =
    (inr tt, says w [UnknownMessageType JNull; FullMessage (JObj fields)]).
Proof.
  intros Hl Ht. rewrite (handle_text_object payload fields w Hl), Ht.
  cbn [default eq_str]. rewrite bind_print, print_run, says_says. reflexivity.
Qed.

Lemma chunk_event_receive (negotiated : string) (message : bytes) (e : event) :
  chunk_event negotiated message e = true -> receive_event (JStr negotiated) e = true.
Proof.
  destruct e as [l| | | |path data| | | | | | | |]; try discriminate; try reflexivity.
  - destruct l; try discriminate; reflexivity.
  - cbn [chunk_event receive_event session_file]. intros Hc.
    apply andb_true_iff in Hc as [_ Hc]. exact Hc.
Qed.

Lemma logs_handle_binary (saf : json) (message : bytes) :
  logs (receive_event saf) (handle_binary saf message).
Proof.
  destruct saf as [|b|z|literal|negotiated|items|fields].
  5: { intros w. destruct (handle_binary_logs negotiated message w) as (t & Ha & Ht).
       exists t. split; [exact Ha|]. rewrite forallb_forall in *.
       intros e He. eapply chunk_event_receive, Ht, He. }
  all: intros w; exists [Say (ReceivedAudio (length message))];
    (split; [|reflexivity]); unfold accounted; cbn; rewrite orb_false_r; auto.
Qed.

Lemma logs_handle_text (saf : json) (payload : string) :
  logs (receive_event saf) (handle_text payload).
Proof. unfold handle_text. repeat logs_step. Qed.

Lemma logs_receive_iteration (saf : json) (arrival : outcome ws_message) :
  logs (receive_event saf) (receive_iteration saf arrival).
Proof.
  unfold receive_iteration.
  repeat (logs_step || apply logs_handle_binary || apply logs_handle_text).
Qed.

Lemma logs_receive_except (saf : json) (e : exn) :
  logs (receive_event saf) (receive_except e).
Proof. unfold receive_except. repeat logs_step. Qed.

Lemma accounted_task (w w' : world) (t : list event) (s : task_state) :
  accounted w w' t -> accounted w (with_recv_task s w') t.
Proof. intros Ha. exact Ha. Qed.

Lemma deliver_logs (saf : json) (arrivals : list (outcome ws_message)) : forall w,
  exists t, accounted w (deliver saf arrivals w) t /\ forallb (receive_event saf) t = true.
Proof.
  induction arrivals as [|a rest IH]; intros w.
  - exists []. split; [apply accounted_refl | reflexivity].
  - cbn [deliver]. destruct (recv_task w);
      try (exists []; split; [apply accounted_refl | reflexivity]).
    destruct (logs_receive_iteration saf a w) as (t1 & Ha1 & Ht1).
    destruct (receive_iteration saf a w) as [[e|[]] w1]; cbn [snd] in Ha1.
    + destruct (logs_receive_except saf e w1) as (t2 & Ha2 & Ht2).
      exists (t1 ++ t2). split.
      * apply accounted_task. eapply accounted_trans; eassumption.
      * rewrite forallb_app, Ht1, Ht2. reflexivity.
    + destruct (stop w1).
      * exists t1. split; [apply accounted_task, Ha1 | exact Ht1].
      * destruct (IH w1) as (t2 & Ha2 & Ht2). exists (t1 ++ t2). split.
        -- eapply accounted_trans; eassumption.
        -- rewrite forallb_app, Ht1, Ht2. reflexivity.
Qed.

Lemma receive_messages_logs (saf : json) (arrivals : list (outcome ws_message)) (w : world) :
  exists t,
    accounted w (receive_messages saf arrivals w) t /\ forallb (receive_event saf) t = true.
Proof.
  unfold receive_messages.
  destruct (deliver_logs saf arrivals (start_recv w)) as (t & Ha & Ht).
  exists t. split; [|exact Ht].
  unfold start_recv in *. destruct (recv_task w); exact Ha.
Qed.

Lemma receive_event_path (saf : json) (p path : string) (d : bytes) :
  session_file saf path = false ->
  receive_event saf (FileWrite p d) = true -> p <> path.
Proof. cbn [receive_event]. intros Hp Hd ->. congruence. Qed.

(** X13: what a turn of the receive task may do, whatever arrives and
    whatever was negotiated: print its own lines, write the files of the
    session (the two fixed ones and the one that the name made of the
    negotiated encoding denotes), call the decoder, play, and set the flag.
    It sends nothing, closes nothing, does not touch the encoder, and
    leaves every other file as it was. *)
Theorem receive_task_footprint (saf : json) (arrivals : list (outcome ws_message))
    (path : string) (w : world) :
  let w' := receive_messages saf arrivals w in
  (exists t, accounted w w' t /\ forallb (receive_event saf) t = true) /\
  sent w' = sent w /\ encoder w' = encoder w /\
  (session_file saf path = false -> files w' !! path = files w !! path).
Proof.
  cbv zeta. destruct (receive_messages_logs saf arrivals w) as (t & Ha & Ht).
  destruct (receive_messages_frame saf arrivals w) as (He & _ & Hs).
  split; [eauto|]. split; [exact Hs|]. split; [exact He|].
  intros Hp. destruct Ha as (_ & Hf & _). rewrite Hf.
  apply (replay_untouched (receive_event saf)); [exact Ht|].
  intros p d. apply receive_event_path, Hp.
Qed.

Lemma receive_messages_flag_stays (saf : json)
    (arrivals : list (outcome ws_message)) (w : world) :
  stop w = true -> stop (receive_messages saf arrivals w) = true.
Proof.
  intros Hs. destruct (receive_messages_logs saf arrivals w) as (t & Ha & _).
  eapply accounted_flag_stays; eassumption.
Qed.

(** X14: the flag is tested only at the head of the loop. A task that waits
    in [recv()] when the flag is set handles the next arrival in full, and
    only then returns; what arrives after is not read. *)
Theorem cancellation_is_seen_after_one_more_message (saf : json)
    (arrival : outcome ws_message) (rest : list (outcome ws_message)) (w : world) :
  stop w = true ->
  session_ending saf arrival = false ->
  exists w1,
    receive_iteration saf arrival (with_recv_task Waiting w) = (inr tt, w1) /\
    deliver saf (arrival :: rest) (with_recv_task Waiting w) =
      with_recv_task Finished w1.
Proof.
  intros Hs Hb.
  destruct (deliver_absorbed saf arrival rest (with_recv_task Waiting w) eq_refl Hb)
    as (w1 & Hr & _ & _ & _ & _ & _ & Hd).
  exists w1. split; [exact Hr|]. rewrite Hd. cbn [stop with_recv_task]. rewrite Hs.
  reflexivity.
Qed.

(** X15: once an arrival has ended the loop, nothing more is read: neither
    the arrivals behind it nor those of later turns. *)
Theorem nothing_is_read_after_the_loop_ends (saf : json)
    (arrival : outcome ws_message) (rest later : list (outcome ws_message)) (w : world) :
  session_ending saf arrival = true ->
  receive_messages saf later
    (deliver saf (arrival :: rest) (with_recv_task Waiting w)) =
  deliver saf [arrival] (with_recv_task Waiting w).
Proof.
  intros Hs.
  destruct (receive_iteration_raises saf arrival (with_recv_task Waiting w) Hs)
    as (e & w1 & Hr).
  rewrite !deliver_waiting, Hr by reflexivity.
  unfold receive_messages, start_recv. cbn [recv_task with_recv_task].
  destruct later; reflexivity.
Qed.

End ReceiveLoop.

(** ** The capture loop (lines 156-191) *)

Section CaptureLoop.
Context `{Collaborators}.

(** With the flag set, the loop is not entered. *)
Lemma capture_when_stopped saf start_ts script frames last w :
  stop w = true -> capture saf start_ts script frames last w = Some (frames, w).
Proof. intros Hs. destruct script; cbn [capture]; rewrite Hs; reflexivity. Qed.

(** Among arrivals of which one is [session_ending], the waiting task sets
    the flag. *)
Lemma deliver_ending saf : forall inbox w,
  recv_task w = Waiting ->
  Exists (λ a, session_ending saf a = true) inbox ->
  stop (deliver saf inbox w) = true.
Proof.
  induction inbox as [|a rest IH]; intros w Hw Hex; [inversion Hex|].
  destruct (session_ending saf a) eqn:Ha.
  - destruct (receive_iteration_raises saf a w Ha) as (e & w1 & Hr).
    rewrite deliver_waiting, Hr, receive_except_run by exact Hw. reflexivity.
  - destruct (deliver_absorbed saf a rest w Hw Ha)
      as (w1 & _ & Hs & Ht & _ & _ & _ & ->).
    destruct (stop w) eqn:E; [exact Hs|].
    apply IH; [exact Ht|]. apply Exists_cons in Hex as [Hh|Hr]; [congruence|exact Hr].
Qed.

Lemma receive_messages_ending saf arrivals w :
  stop w = false ->
  recv_task w = Fresh \/ recv_task w = Waiting ->
  Exists (λ a, session_ending saf a = true) arrivals ->
  stop (receive_messages saf arrivals w) = true.
Proof.
  intros Hw Ht Hex. apply deliver_ending; [|exact Hex].
  unfold start_recv. destruct Ht as [Ht|Ht]; rewrite Ht;
    [rewrite Hw; reflexivity | exact Ht].
Qed.

(** X16: when the receive loop ends while the capture loop is suspended,
    the frame just read is kept and the capture loop ends there: the
    microphone is not read again, and nothing has been sent yet. *)
Theorem end_of_reception_ends_the_capture (saf : json) (start_ts : float) (t : tick)
    (rest : list tick) (frames : list bytes) (last : float) (pcm : bytes)
    (overflowed : bool) (w : world) :
  stop w = false ->
  within_recording start_ts (clock w) = true ->
  recv_task w = Fresh \/ recv_task w = Waiting ->
  mic_read t = inr (pcm, overflowed) ->
  Exists (λ a, session_ending saf a = true) (arrivals t) ->
  exists w',
    capture saf start_ts (t :: rest) frames last w = Some (frames ++ [pcm], w') /\
    stop w' = true /\ sent w' = sent w.
Proof.
  intros Hw Hc Ht Hr Hex.
  assert (Hstep : exists last' w',
            capture_step saf t frames last w = ((frames ++ [pcm], last'), w') /\
            stop w' = true /\ sent w' = sent w).
  { unfold capture_step, capture_body. rewrite Hr.
    unfold bind, advance, lift, wall_time, yield_to_recv, ret, print, emit.
    destruct (overflowed && _); cbn [fst snd];
      match goal with |- context [receive_messages saf ?a ?x] =>
        destruct (receive_messages_frame saf a x) as (_ & _ & Hs);
        pose proof (receive_messages_ending saf a x Hw Ht Hex) as Hb;
        set (X := receive_messages saf a x) in *
      end;
      eexists; exists (with_clock (clock X + yield_ms t) X);
      (split; [reflexivity|]);
      change (sent (with_clock (clock X + yield_ms t) X)) with (sent X);
      (split; [exact Hb|]); rewrite Hs;
      rewrite ?(sent_emit_other (Say InputOverflowed) _ I); reflexivity. }
  destruct Hstep as (last' & w' & Hstep & Hw' & Hs').
  exists w'. cbn [capture]. rewrite Hw, Hc. cbn [negb andb].
  rewrite Hstep, capture_when_stopped by exact Hw'. auto.
Qed.

(** Ticks in which nothing ends the capture, and at whose heads the test of
    line 159 passes, are consumed one by one. *)
Lemma capture_prefix saf start_ts : forall good rest frames last w,
  Forall (calm saf) good ->
  stop w = false ->
  in_window start_ts (clock w) good = true ->
  exists last' w',
    capture saf start_ts (good ++ rest) frames last w =
      capture saf start_ts rest (frames ++ (pcm_of <$> good)) last' w' /\
    stop w' = false /\ within_recording start_ts (clock w') = true /\
    encoder w' = encoder w /\ sent w' = sent w.
Proof.
  induction good as [|t good IH]; intros rest frames last w Hall Hw Hin;
    cbn [in_window] in Hin; apply andb_true_iff in Hin as [Hwin Hin].
  - exists last, w. cbn [app fmap list_fmap]. rewrite app_nil_r. auto.
  - apply Forall_cons in Hall as [Ht Hall].
    destruct (capture_step_calm saf t frames last w Ht Hw)
      as (last1 & w1 & Hstep & Hw1 & Hc1 & He1 & Hs1).
    destruct (IH rest (frames ++ [pcm_of t]) last1 w1 Hall Hw1) as
      (last' & w' & Hcap & Hw' & Hc' & He' & Hs'); [rewrite Hc1; exact Hin|].
    exists last', w'. cbn [app capture]. rewrite Hw, Hwin. cbn [negb andb].
    rewrite Hstep, Hcap. cbn [fmap list_fmap]. rewrite <- app_assoc.
    cbn [app]. repeat split; congruence.
Qed.

(** An iteration in which [mic.read] raises: nothing is appended, the flag
    is set. *)
Lemma capture_step_failed saf t frames last w e :
  mic_read t = inl e ->
  exists w',
    capture_step saf t frames last w = ((frames, last), w') /\
    stop w' = true /\ encoder w' = encoder w /\ sent w' = sent w.
Proof.
  intros Hr. unfold capture_step, capture_body. unfold bind at 1.
  cbn [advance]. unfold bind at 1. rewrite Hr. cbn [lift].
  eexists. split; [reflexivity|]. unfold capture_except, bind, print, emit, stop_set.
  destruct (is_connection_closed e); cbn [snd stop encoder with_stop with_trace with_clock];
    (split; [reflexivity|]); (split; [reflexivity|]);
    unfold sent; cbn [trace with_stop with_trace with_clock];
    rewrite <- app_assoc, omap_app; cbn; apply app_nil_r.
Qed.

(** The burst never clears the flag. *)
Lemma transmit_flag_stays saf steps frames : forall i w,
  stop w = true -> stop (transmit saf steps i frames w) = true.
Proof.
  induction frames as [|f fs IH]; intros i w Hw; [exact Hw|].
  cbn [transmit].
  destruct (transmit_body saf (steps i) f w) as [[e0|[]] w'] eqn:Hb.
  - unfold transmit_except, bind, print, emit, stop_set.
    destruct (is_connection_closed e0); reflexivity.
  - apply IH. unfold transmit_body, encode, bind in Hb.
    destruct (opus_encode (encoder w) f frame_size) as [[e0|packet] st];
      [discriminate|].
    unfold ws_send in Hb. destruct (send_failure (steps i)); [discriminate|].
    cbn [emit yield_to_recv] in Hb. injection Hb as <-.
    apply receive_messages_flag_stays. exact Hw.
Qed.

(** X17: an exception from the microphone ends the capture but not the
    task: the frames recorded before it, however long each iteration took,
    are still encoded and sent, in order. *)
Theorem microphone_failure_keeps_the_buffer (saf : json) (good : list tick)
    (bad : tick) (rest : list tick) (steps : nat -> send_step) (e : exn) (w : world) :
  mic_open = None ->
  stop w = false ->
  Forall (calm saf) good ->
  in_window (seconds (clock w)) (clock w) good = true ->
  mic_read bad = inl e ->
  (forall i, send_failure (steps i) = None) ->
  length (encode_seq (encoder w) (pcm_of <$> good)) = length good ->
  exists w',
    send_audio saf (good ++ bad :: rest) steps w = Some (inr tt, w') /\
    stop w' = true /\
    sent w' = sent w ++ (Binary <$> encode_seq (encoder w) (pcm_of <$> good)).
Proof.
  intros Hm Hw Hall Hin Hr Hsend Henc.
  destruct (capture_prefix saf (seconds (clock w)) good (bad :: rest) [] 0%float w
              Hall Hw Hin)
    as (last1 & w1 & Hcap & Hw1 & Hc1 & He1 & Hs1).
  destruct (capture_step_failed saf bad (pcm_of <$> good) last1 w1 e Hr)
    as (w2 & Hstep & Hw2 & He2 & Hs2).
  unfold send_audio. rewrite Hm. cbv zeta. rewrite Hcap. cbn [app capture].
  rewrite Hw1, Hc1. cbn [negb andb].
  rewrite Hstep, capture_when_stopped by exact Hw2.
  set (w3 := match pcm_of <$> good with
             | [] => w2
             | _ => (print (SendingFrames (length (pcm_of <$> good))
                              (length (pcm_of <$> good) * 20)) w2).2
             end).
  assert (H3 : stop w3 = true /\ encoder w3 = encoder w /\ sent w3 = sent w).
  { subst w3. destruct (pcm_of <$> good); [repeat split; congruence|].
    rewrite print_run. cbn [snd]. rewrite sent_says.
    repeat split; cbn [stop encoder says with_trace]; congruence. }
  destruct H3 as (Hw3 & He3 & Hs3).
  eexists. split; [rewrite print_run; reflexivity|]. split.
  - change (stop (says ?x ?l)) with (stop x). apply transmit_flag_stays, Hw3.
  - rewrite sent_says, transmit_sent, He3, Hs3.
    rewrite transmitted_all; [reflexivity | exact Hsend |].
    rewrite Henc, length_fmap. reflexivity.
Qed.

End CaptureLoop.

(** ** The handshake and the session as a whole (lines 88-128, 371-396) *)

Section Session.
Context `{Collaborators}.

Lemma handshake_object (audio_format : string) (response : ws_message)
    (fields : gmap string json) (w : world) :
  loads response = inr (JObj fields) ->
  let type := default JNull (fields !! "type") in
  let session_id := default JNull (fields !! "session_id") in
  let server_audio_format := default (JStr audio_format) (fields !! "audio_format") in
  handshake audio_format None (inr response) w =
    (inr (session_id, server_audio_format),
     with_trace
       (trace w ++
        [WsSend (Text (json_dumps (JObj (hello audio_format))));
         Say (SentHello (JStr audio_format))] ++
        (if eq_str type "hello" then [] else [Say (UnexpectedResponseType type)]) ++
        [Say (SessionId session_id); Say (ServerWillSend server_audio_format)]) w).
Proof.
  intros Hl. cbv zeta. unfold handshake. cbn [ws_send].
  unfold bind at 1. cbn [emit].
  unfold dict_getitem. rewrite hello_audio_format. rewrite bind_lift_inr, bind_print.
  rewrite bind_lift_inr, Hl, bind_lift_inr.
  cbn [dict_get dict_get_default]. rewrite bind_lift_inr.
  rewrite hello_audio_format. cbn [default].
  destruct (eq_str (default JNull (fields !! "type")) "hello"); cbn [negb];
    world_eq.
Qed.

(** X19: any JSON object is taken for the acknowledgment. Its [session_id]
    and [audio_format] are read, the first defaulting to [None] and the
    second to the requested encoding; an [audio_format] that is present is
    adopted as it is; a [type] other than ["hello"] only adds a warning. *)
Theorem any_object_is_accepted_as_acknowledgment (audio_format : string)
    (response : ws_message) (fields : gmap string json) (w : world) :
  loads response = inr (JObj fields) ->
  let type := default JNull (fields !! "type") in
  let session_id := default JNull (fields !! "session_id") in
  let server_audio_format := default (JStr audio_format) (fields !! "audio_format") in
  handshake audio_format None (inr response) w =
    (inr (session_id, server_audio_format),
     with_trace
       (trace w ++
        [WsSend (Text (json_dumps (JObj (hello audio_format))));
         Say (SentHello (JStr audio_format))] ++
        (if eq_str type "hello" then [] else [Say (UnexpectedResponseType type)]) ++
        [Say (SessionId session_id); Say (ServerWillSend server_audio_format)]) w).
Proof. exact (handshake_object audio_format response fields w). Qed.

(** X20: when the acknowledgment binds [audio_format] to a value that is not
    a string, that value becomes the negotiated encoding, and then every
    binary chunk ends the receive loop with the flag set. *)
Theorem non_string_encoding_ends_reception (audio_format : string)
    (response : ws_message) (fields : gmap string json) (v : json) (w : world) :
  loads response = inr (JObj fields) ->
  fields !! "audio_format" = Some v ->
  (forall s, v <> JStr s) ->
  exists session_id w',
    handshake audio_format None (inr response) w = (inr (session_id, v), w') /\
    forall message rest w0,
      let w1 := deliver v (inr (Binary message) :: rest) (with_recv_task Waiting w0) in
      stop w1 = true /\ recv_task w1 = Finished.
Proof.
  intros Hl Hf Hv. eexists _, _. split.
  - rewrite (handshake_object audio_format response fields w Hl). cbv zeta.
    rewrite Hf. reflexivity.
  - intros message rest w0. cbv zeta.
    assert (Hs : session_ending v (inr (Binary message)) = true).
    { cbn. destruct v; try reflexivity. exfalso. eapply Hv. reflexivity. }
    destruct (receive_iteration_raises v _ (with_recv_task Waiting w0) Hs) as (e & w2 & Hr).
    rewrite deliver_waiting, Hr, receive_except_run by reflexivity.
    split; reflexivity.
Qed.

(** X21: a reply that is not a JSON object aborts the session after the
    Hello message: nothing is captured, and the teardown is not run. *)
Theorem bad_reply_aborts_the_session (audio_format : string) (response : ws_message)
    (script : list tick) (steps : nat -> send_step)
    (late : list (outcome ws_message)) (w : world) :
  match loads response with inr (JObj _) => False | _ => True end ->
  exists e,
    robot_client audio_format None (inr response) script steps late w =
      Some (inl e,
            with_trace
              (trace w ++
               [WsSend (Text (json_dumps (JObj (hello audio_format))));
                Say (SentHello (JStr audio_format)); WsContextExit]) w).
Proof.
  intros Hbad. unfold robot_client.
  assert (Hh : exists e,
    handshake audio_format None (inr response) w =
      (inl e, with_trace
                (trace w ++
                 [WsSend (Text (json_dumps (JObj (hello audio_format))));
                  Say (SentHello (JStr audio_format))]) w)).
  { unfold handshake. cbn [ws_send]. unfold bind at 1. cbn [emit].
    unfold dict_getitem. rewrite hello_audio_format.
    rewrite bind_lift_inr, bind_print, bind_lift_inr.
    destruct (loads response) as [e|[]]; try contradiction;
      eexists; unfold dict_get, dict_get_default; world_eq. }
  destruct Hh as (e & ->). exists e. cbn [fst snd]. f_equal. f_equal. world_eq.
Qed.

(** A turn of the receive task runs no step of the teardown but, possibly,
    the setting of the flag. *)
Lemma receive_runs_no_teardown_step (saf : json) (t : list event) :
  forallb (receive_event saf) t = true ->
  executions CloseChannel t = 0%nat /\
  executions AwaitReceiveTask t = 0%nat /\
  executions StopOutput t = 0%nat /\
  executions ReleaseOutput t = 0%nat.
Proof.
  unfold executions. induction t as [|e t IH]; [cbn; auto|].
  cbn [forallb]. intros Ht. apply andb_true_iff in Ht as [He Ht].
  destruct (IH Ht) as (? & ? & ? & ?).
  destruct e; try discriminate; cbn [List.filter performs]; auto.
Qed.

(** X22: when the microphone cannot be opened, the session ends with that
    exception, and the teardown is not run: the channel is not closed by
    [close()], the receive task is not awaited, the output device is neither
    stopped nor released. The connection is closed only by leaving the
    block. *)
Theorem microphone_failure_skips_the_teardown (audio_format : string)
    (hello_failure : option exn) (reply : outcome ws_message)
    (script : list tick) (steps : nat -> send_step)
    (late : list (outcome ws_message)) (e : exn)
    (session_id server_audio_format : json) (w w0 : world) :
  handshake audio_format hello_failure reply w =
    (inr (session_id, server_audio_format), w0) ->
  mic_open = Some e ->
  exists w' t,
    robot_client audio_format hello_failure reply script steps late w =
      Some (inl e, w') /\
    trace w' = trace w0 ++ t ++ [WsContextExit] /\
    executions CloseChannel t = 0%nat /\
    executions AwaitReceiveTask t = 0%nat /\
    executions StopOutput t = 0%nat /\
    executions ReleaseOutput t = 0%nat.
Proof.
  intros Hh Hm. unfold robot_client, send_audio. rewrite Hh, Hm.
  set (w1 := with_recv_task Fresh (with_stop false w0)).
  destruct (receive_messages_logs server_audio_format late w1) as (t & (Ht & _) & Hall).
  eexists _, t. split; [reflexivity|]. cbn [snd emit trace with_trace]. rewrite Ht.
  split; [rewrite <- app_assoc; reflexivity|].
  apply (receive_runs_no_teardown_step server_audio_format), Hall.
Qed.

Lemma teardown_run (w : world) :
  trace (teardown w).2 = trace w ++ teardown_trace /\
  stop (teardown w).2 = true /\
  recv_task (teardown w).2 = recv_task w /\
  files (teardown w).2 = files w /\
  sent (teardown w).2 = sent w.
Proof.
  unfold teardown, teardown_trace, bind, stop_set, emit, failing, print, sent.
  destruct ws_close as [e1|]; [cbn; rewrite <- ?app_assoc, ?omap_app; cbn;
    rewrite ?app_nil_r; auto|].
  destruct output_stop as [e2|]; [cbn; rewrite <- ?app_assoc, ?omap_app; cbn;
    rewrite ?app_nil_r; auto|].
  destruct output_close as [e3|]; cbn; rewrite <- ?app_assoc, ?omap_app; cbn;
    rewrite ?app_nil_r; auto.
Qed.

Lemma timeout_run (x : world) :
  let r := bind (advance 300000)
             (fun _ => bind (emit CancelRecv) (fun _ => print NoResponseWithin300s))
             (with_recv_task Cancelled x) in
  r.1 = inr tt /\
  trace r.2 = trace x ++ [CancelRecv; Say NoResponseWithin300s] /\
  files r.2 = files x /\ recv_task r.2 = Cancelled /\ stop r.2 = stop x.
Proof.
  cbv zeta. unfold bind, advance, emit, print. destruct x. cbn.
  rewrite <- ?app_assoc. auto.
Qed.

Lemma await_recv_run (saf : json) (arrivals : list (outcome ws_message)) (w : world) :
  let r := await_recv saf arrivals w in
  r.1 = inr tt /\
  (recv_task r.2 = Finished \/ recv_task r.2 = Cancelled) /\
  sent r.2 = sent w /\
  exists t, trace r.2 = trace w ++ t /\ files r.2 = replay t (files w) /\
            forallb (client_event saf) t = true.
Proof.
  cbv zeta. unfold await_recv.
  destruct (receive_messages_logs saf arrivals w) as (t & (Ht & Hf & _) & Hall).
  destruct (receive_messages_frame saf arrivals w) as (_ & _ & Hs).
  assert (Hc : forallb (client_event saf) t = true).
  { rewrite forallb_forall in *. intros e He. specialize (Hall e He).
    destruct e; try reflexivity. exact Hall. }
  set (x := receive_messages saf arrivals w) in *.
  destruct (timeout_run x) as (Hr & Htr & Hfr & Hkr & _). cbv zeta in *.
  assert (Hsent : forall w', trace w' = trace x ++ [CancelRecv; Say NoResponseWithin300s] ->
                    sent w' = sent w).
  { intros w' Hw'. unfold sent in *. rewrite Hw', omap_app, Hs. cbn. apply app_nil_r. }
  assert (Htimeout :
    let r := bind (advance 300000)
               (fun _ => bind (emit CancelRecv) (fun _ => print NoResponseWithin300s))
               (with_recv_task Cancelled x) in
    r.1 = inr tt /\ (recv_task r.2 = Finished \/ recv_task r.2 = Cancelled) /\
    sent r.2 = sent w /\
    exists t0, trace r.2 = trace w ++ t0 /\ files r.2 = replay t0 (files w) /\
               forallb (client_event saf) t0 = true).
  { cbv zeta. split; [exact Hr|]. split; [auto|]. split; [apply Hsent, Htr|].
    exists (t ++ [CancelRecv; Say NoResponseWithin300s]).
    rewrite Htr, Hfr, Ht, Hf, replay_app, forallb_app, Hc, <- app_assoc. auto. }
  destruct (recv_task x) eqn:Hk; try exact Htimeout.
  cbn [fst snd]. split; [reflexivity|]. split; [auto|]. split; [exact Hs|].
  exists t. auto.
Qed.

(** X23: once the send task has returned, the teardown is run, whether the
    receive task has returned by itself or the wait for it has timed out:
    the session ends with the flag set, the steps of the teardown in its
    trace, and the connection closed on leaving. *)
Theorem recording_is_followed_by_the_teardown (audio_format : string)
    (hello_failure : option exn) (reply : outcome ws_message)
    (script : list tick) (steps : nat -> send_step)
    (late : list (outcome ws_message))
    (session_id server_audio_format : json) (w w0 w2 : world) :
  handshake audio_format hello_failure reply w =
    (inr (session_id, server_audio_format), w0) ->
  send_audio server_audio_format script steps
    (with_recv_task Fresh (with_stop false w0)) = Some (inr tt, w2) ->
  exists r w' before,
    robot_client audio_format hello_failure reply script steps late w = Some (r, w') /\
    stop w' = true /\
    (recv_task w' = Finished \/ recv_task w' = Cancelled) /\
    trace w' = trace w2 ++ before ++ teardown_trace ++ [WsContextExit].
Proof.
  intros Hh Hs. unfold robot_client. rewrite Hh, Hs.
  destruct (await_recv_run server_audio_format late w2)
    as (Hr & Hk & _ & t & Ht & _ & _).
  destruct (await_recv server_audio_format late w2) as [[e|[]] w3] eqn:Ha;
    cbn [fst snd] in *; [discriminate|].
  rewrite (bind_run _ _ _ _ _ Ha).
  destruct (teardown_run w3) as (Htt & Hst & Hkt & _ & _).
  destruct (teardown w3) as [r w4]. cbn [fst snd] in *.
  exists r, (emit WsContextExit w4).2, t. split; [reflexivity|].
  cbn [emit snd stop recv_task trace with_trace].
  split; [exact Hst|]. split; [rewrite Hkt; exact Hk|].
  rewrite Htt, Ht, <- !app_assoc. reflexivity.
Qed.

End Session.

(** ** What a whole session sends and writes *)

Section SessionFootprint.
Context `{Collaborators}.

Lemma receive_event_quiet saf e : receive_event saf e = true -> quiet_event saf e = true.
Proof. destruct e; try discriminate; try reflexivity. exact (fun x => x). Qed.

Lemma quiet_event_client saf e : quiet_event saf e = true -> client_event saf e = true.
Proof. destruct e; try discriminate; try reflexivity; exact (fun x => x). Qed.

Lemma forallb_impl (P Q : event -> bool) t :
  (forall e, P e = true -> Q e = true) -> forallb P t = true -> forallb Q t = true.
Proof. intros HPQ. rewrite !forallb_forall. auto. Qed.

Lemma logs_yield_to_recv saf arrivals :
  logs (quiet_event saf) (yield_to_recv saf arrivals).
Proof.
  intros w. destruct (receive_messages_logs saf arrivals w) as (t & Ha & Ht).
  exists t. split; [exact Ha|]. eapply forallb_impl; [apply receive_event_quiet|exact Ht].
Qed.

Lemma logs_capture_body saf t frames last :
  logs (quiet_event saf) (capture_body saf t frames last).
Proof. unfold capture_body. repeat (logs_step || apply logs_yield_to_recv). Qed.

Lemma logs_capture_except saf e : logs (quiet_event saf) (capture_except e).
Proof. unfold capture_except. repeat logs_step. Qed.

Lemma capture_step_quiet saf t frames last w :
  exists tr,
    accounted w (capture_step saf t frames last w).2 tr /\
    forallb (quiet_event saf) tr = true.
Proof.
  unfold capture_step.
  destruct (logs_capture_body saf t frames last w) as (t1 & Ha1 & Ht1).
  destruct (capture_body saf t frames last w) as [[e|locals] w1]; cbn [snd] in *.
  - destruct (logs_capture_except saf e w1) as (t2 & Ha2 & Ht2). exists (t1 ++ t2).
    split; [eapply accounted_trans; eassumption|].
    rewrite forallb_app, Ht1, Ht2. reflexivity.
  - exists t1. auto.
Qed.

(** The capture loop sends nothing and writes no file of its own. *)
Lemma capture_quiet saf start_ts : forall script frames last w frames' w',
  capture saf start_ts script frames last w = Some (frames', w') ->
  exists tr, accounted w w' tr /\ forallb (quiet_event saf) tr = true.
Proof.
  induction script as [|t script IH]; intros frames last w frames' w' Hc;
    cbn [capture] in Hc;
    destruct (negb (stop w) && within_recording start_ts (clock w));
    try discriminate.
  - injection Hc as _ <-. exists []. split; [apply accounted_refl|reflexivity].
  - destruct (capture_step_quiet saf t frames last w) as (t1 & Ha1 & Ht1).
    destruct (capture_step saf t frames last w) as [[frames1 last1] w1].
    cbn [snd] in Ha1. destruct (IH _ _ _ _ _ Hc) as (t2 & Ha2 & Ht2).
    exists (t1 ++ t2). split; [eapply accounted_trans; eassumption|].
    rewrite forallb_app, Ht1, Ht2. reflexivity.
  - injection Hc as _ <-. exists []. split; [apply accounted_refl|reflexivity].
Qed.

Lemma logs_transmit_body saf s pcm : logs (client_event saf) (transmit_body saf s pcm).
Proof.
  unfold transmit_body, ws_send. repeat logs_step.
  eapply logs_weaken; [apply quiet_event_client | apply logs_yield_to_recv].
Qed.

Lemma logs_transmit_except saf e : logs (client_event saf) (transmit_except e).
Proof. unfold transmit_except. repeat logs_step. Qed.

Lemma transmit_client saf steps frames : forall i w,
  exists tr,
    accounted w (transmit saf steps i frames w) tr /\
    forallb (client_event saf) tr = true.
Proof.
  induction frames as [|f fs IH]; intros i w.
  - exists []. split; [apply accounted_refl|reflexivity].
  - cbn [transmit].
    destruct (logs_transmit_body saf (steps i) f w) as (t1 & Ha1 & Ht1).
    destruct (transmit_body saf (steps i) f w) as [[e|[]] w1]; cbn [snd] in *.
    + destruct (logs_transmit_except saf e w1) as (t2 & Ha2 & Ht2). exists (t1 ++ t2).
      split; [eapply accounted_trans; eassumption|].
      rewrite forallb_app, Ht1, Ht2. reflexivity.
    + destruct (IH (S i) w1) as (t2 & Ha2 & Ht2). exists (t1 ++ t2).
      split; [eapply accounted_trans; eassumption|].
      rewrite forallb_app, Ht1, Ht2. reflexivity.
Qed.

Lemma same_files_outside_refl saf w : same_files_outside saf w w.
Proof. intros path _. reflexivity. Qed.

Lemma same_files_outside_trans saf w1 w2 w3 :
  same_files_outside saf w1 w2 -> same_files_outside saf w2 w3 ->
  same_files_outside saf w1 w3.
Proof. intros H12 H23 path Hp. rewrite (H23 path Hp). apply H12, Hp. Qed.

Lemma accounted_same_files saf w w' t :
  accounted w w' t -> forallb (client_event saf) t = true -> same_files_outside saf w w'.
Proof.
  intros (_ & Hf & _) Ht path Hp. rewrite Hf.
  apply (replay_untouched (client_event saf)); [exact Ht|].
  intros p d Hd ->. cbn [client_event] in Hd. congruence.
Qed.

Lemma receive_same_files saf arrivals w :
  same_files_outside saf w (receive_messages saf arrivals w).
Proof.
  destruct (receive_messages_logs saf arrivals w) as (t & Ha & Ht).
  eapply accounted_same_files; [exact Ha|].
  eapply forallb_impl; [|exact Ht].
  intros e He. apply quiet_event_client, receive_event_quiet, He.
Qed.

(** What [send_audio] sends and writes once the microphone is open. *)
Lemma send_audio_footprint saf script steps w r w' :
  mic_open = None ->
  send_audio saf script steps w = Some (r, w') ->
  same_files_outside saf w w' /\
  exists frames w1,
    capture saf (seconds (clock w)) script [] 0%float w = Some (frames, w1) /\
    sent w' = sent w ++ (Binary <$> transmitted steps 0 (encoder w1) frames).
Proof.
  intros Hm. unfold send_audio. rewrite Hm. cbv zeta.
  destruct (capture saf (seconds (clock w)) script [] 0%float w)
    as [[frames w1]|] eqn:Hc; [|discriminate].
  destruct (capture_quiet _ _ _ _ _ _ _ _ Hc) as (t1 & Ha1 & Ht1).
  set (w2 := match frames with
             | [] => w1
             | _ => (print (SendingFrames (length frames) (length frames * 20)) w1).2
             end).
  assert (H2 : files w2 = files w1 /\ sent w2 = sent w1 /\ encoder w2 = encoder w1).
  { subst w2. destruct frames; [auto|]. rewrite print_run. cbn [snd].
    rewrite sent_says. auto. }
  destruct H2 as (Hf2 & Hs2 & He2). clearbody w2.
  destruct (transmit_client saf steps frames 0 w2) as (t3 & Ha3 & Ht3).
  rewrite print_run. intros [= <- <-]. split.
  - eapply same_files_outside_trans.
    + eapply accounted_same_files; [exact Ha1|].
      eapply forallb_impl; [apply quiet_event_client | exact Ht1].
    + intros path Hp. change (files (says ?x ?l)) with (files x).
      rewrite (accounted_same_files _ _ _ _ Ha3 Ht3 path Hp), Hf2. reflexivity.
  - exists frames, w1. split; [reflexivity|].
    rewrite sent_says, transmit_sent, Hs2, He2.
    rewrite (sent_accounted (quiet_event saf) w w1 t1 Ha1 Ht1); reflexivity.
Qed.

(** What the handshake sends and writes. *)
Lemma handshake_footprint audio_format reply w :
  let w' := (handshake audio_format None reply w).2 in
  files w' = files w /\
  sent w' = sent w ++ [Text (json_dumps (JObj (hello audio_format)))].
Proof.
  cbv zeta. unfold handshake. cbn [ws_send].
  assert (Hrun : forall e (k : unit -> M (json * json)),
            bind (emit e) k w = k tt (with_trace (trace w ++ [e]) w)) by reflexivity.
  rewrite Hrun. clear Hrun.
  match goal with |- context [bind ?m ?f ?x] =>
    assert (Hl : logs (fun e => match e with Say _ => true | _ => false end) (bind m f))
  end.
  { repeat logs_step. }
  match type of Hl with logs _ ?k =>
    match goal with |- context [k ?x] => destruct (Hl x) as (t & Ha & Ht) end end.
  split.
  - destruct Ha as (_ & Hf & _). rewrite Hf. cbn [files with_trace].
    apply map_eq. intros path.
    apply (replay_untouched (fun e => match e with Say _ => true | _ => false end));
      [exact Ht|]. discriminate.
  - rewrite (sent_accounted _ _ _ t Ha Ht) by reflexivity.
    unfold sent. cbn [trace with_trace]. rewrite omap_app. reflexivity.
Qed.


(** X25: a session writes at most three files: [response.mp3],
    [response_unknown.bin], and the file that the name made of the
    negotiated encoding denotes. Every other file is at the end what it was
    at the start; when the handshake raises, or the negotiated encoding is
    not a string, no file is written at all. *)
Theorem session_writes_only_its_files (audio_format : string)
    (reply : outcome ws_message) (script : list tick) (steps : nat -> send_step)
    (late : list (outcome ws_message)) (r : outcome unit) (path : string)
    (w w' : world) :
  robot_client audio_format None reply script steps late w = Some (r, w') ->
  session_file (negotiated_encoding audio_format reply w) path = false ->
  files w' !! path = files w !! path.
Proof.
  unfold robot_client, negotiated_encoding. cbv zeta. intros Hrun Hpath.
  assert (Hleave : forall x, files (emit WsContextExit x).2 = files x)
    by reflexivity.
  destruct (handshake_footprint audio_format reply w) as (Hhf & _). cbv zeta in Hhf.
  destruct (handshake audio_format None reply w) as [[e|[sid saf]] w0]; cbn [snd] in Hhf.
  { cbn [fst snd] in Hrun.
    assert (Hw : w' = (emit WsContextExit w0).2) by congruence.
    rewrite Hw, Hleave, Hhf. reflexivity. }
  set (w1 := with_recv_task Fresh (with_stop false w0)) in *.
  assert (Hf1 : files w1 = files w0) by reflexivity.
  destruct mic_open as [e|] eqn:Hm.
  - unfold send_audio in Hrun. rewrite Hm in Hrun. cbn [fst snd] in Hrun.
    assert (Hw : w' = (emit WsContextExit (receive_messages saf late w1)).2)
      by congruence.
    rewrite Hw, Hleave, (receive_same_files saf late w1 path Hpath), Hf1, Hhf.
    reflexivity.
  - destruct (send_audio saf script steps w1) as [[[e|[]] w2]|] eqn:Hs;
      [| |discriminate];
      destruct (send_audio_footprint _ _ _ _ _ _ Hm Hs) as (Hf & _);
      specialize (Hf path Hpath).
    + cbn [fst snd] in Hrun.
      assert (Hw : w' = (emit WsContextExit (receive_messages saf late w2)).2)
        by congruence.
      rewrite Hw, Hleave, (receive_same_files saf late w2 path Hpath), Hf, Hf1, Hhf.
      reflexivity.
    + destruct (await_recv_run saf late w2) as (Hr & _ & _ & t & Ht & Hft & Hall).
      destruct (await_recv saf late w2) as [[e|[]] w3] eqn:Ha; cbn [fst snd] in *;
        [discriminate|].
      rewrite (bind_run _ _ _ _ _ Ha) in Hrun.
      destruct (teardown_run w3) as (_ & _ & _ & Hfd & _).
      destruct (teardown w3) as [r4 w4]. cbn [fst snd] in *.
      assert (Hw : w' = (emit WsContextExit w4).2) by congruence.
      rewrite Hw, Hleave, Hfd, Hft.
      rewrite (replay_untouched (client_event saf) t (files w2) path Hall).
      * rewrite Hf, Hf1, Hhf. reflexivity.
      * intros p d Hd ->. cbn [client_event] in Hd. congruence.
Qed.

(** X26: the flag, once set, is never cleared: not by a turn of the receive
    task, not by the burst, not by the wait for the receive task. *)
Theorem flag_is_never_cleared (saf : json) (arrivals : list (outcome ws_message))
    (steps : nat -> send_step) (frames : list bytes) (w : world) :
  stop w = true ->
  stop (receive_messages saf arrivals w) = true /\
  stop (transmit saf steps 0 frames w) = true /\
  stop (await_recv saf arrivals w).2 = true.
Proof.
  intros Hs. split; [apply receive_messages_flag_stays, Hs|].
  split; [apply transmit_flag_stays, Hs|].
  unfold await_recv.
  pose proof (receive_messages_flag_stays saf arrivals w Hs) as Hr.
  destruct (recv_task (receive_messages saf arrivals w)); try exact Hr;
    destruct (timeout_run (receive_messages saf arrivals w)) as (_ & _ & _ & _ & ->);
    exact Hr.
Qed.

End SessionFootprint.

(** ** Runs of the further properties *)

Section FurtherRuns.
Import Stub Faults.
#[local] Existing Instance collaborators.

Let w0 : world (H := collaborators) := start (C := collaborators) 0%nat 0%nat.
Let stopped : world (H := collaborators) := with_stop (H := collaborators) true w0.

(** The head [ff fb 90] of an MPEG-1 layer III frame, ["opus"] negotiated. *)
Lemma layer3_head_is_mp3 :
  classify (H := collaborators) (JStr "opus") [xff; xfb; x90] w0 =
    (inr (true, false),
     says w0 [DetectedFrameSync; FormatMismatch "mp3" (JStr "opus"); Tip "mp3"]).
Proof.
  apply (frame_sync_chunk_is_classified_mp3 (H := collaborators)
           "opus" xfb x90 [] w0).
  reflexivity.
Defined.

(** The two bytes [ff fb] alone, ["MP3"] negotiated. *)
Lemma two_bytes_follow_negotiation :
  classify (H := collaborators) (JStr "MP3") [xff; xfb] w0 = (inr (true, false), w0).
Proof.
  apply (short_chunk_follows_negotiation (H := collaborators) "MP3" [xff; xfb] w0).
  cbn. lia.
Defined.

(** A two-byte packet, which the stub decoder accepts. *)
Lemma packet_is_played :
  exists ls,
    handle_binary (H := collaborators) (JStr "opus") [x01; x02] w0 =
      (inr tt,
       with_decoder (H := collaborators) 1%nat
         (with_trace
            (trace w0 ++ (Say <$> ReceivedAudio (length [x01; x02]) :: ls) ++
             [OpusDecode [x01; x02]; OutputWrite [x02; x02]; Say PlayingDecodedOpus])
            w0)).
Proof.
  apply (decoded_chunk_is_played (H := collaborators) "opus" [x01; x02] [x02; x02]
           1%nat w0).
  - reflexivity.
  - reflexivity.
  - reflexivity.
Defined.

(** The same packet on a machine whose output device refuses every write. *)
Lemma packet_is_saved_when_muted :
  let w := start (C := muted) 0%nat 0%nat in
  exists ls,
    handle_binary (H := muted) (JStr "opus") [x01; x02] w =
      (inr tt,
       with_files (H := muted) (<["response_unknown.bin" := [x01; x02]]> (files w))
         (with_decoder (H := muted) 1%nat
            (with_trace (H := muted)
               (trace w ++ (Say <$> ReceivedAudio (length [x01; x02]) :: ls) ++
                [OpusDecode [x01; x02]; OutputWrite [x02; x02];
                 Say (ErrorDecodingOpus (PortAudioError (-9999)));
                 Say (AudioLength (length [x01; x02]));
                 Say (First10Bytes (hex (take 10 [x01; x02])));
                 FileWrite "response_unknown.bin" [x01; x02]; Say SavedUnknown]) w))).
Proof.
  apply (playback_failure_is_absorbed (H := muted) "opus" [x01; x02] [x02; x02]
           1%nat (PortAudioError (-9999)) (start (C := muted) 0%nat 0%nat)).
  - reflexivity.
  - reflexivity.
  - reflexivity.
Defined.

(** One byte, ["WAV"] negotiated: the file is [response.wav]. *)
Lemma wav_chunk_is_saved_by_name :
  exists ls,
    handle_binary (H := collaborators) (JStr "WAV") [x01] w0 =
      (inr tt,
       with_files (<["response.wav" := [x01]]> (files w0))
         (with_trace
            (trace w0 ++ (Say <$> ReceivedAudio (length [x01]) :: ls) ++
             [Say (CouldNotDetermine (JStr "WAV")); FileWrite "response.wav" [x01];
              Say (SavedAs "response.wav"); Say (HowToPlay "response.wav")]) w0)).
Proof.
  exact (unknown_encoding_is_saved_by_name (H := collaborators) "WAV" [x01] w0 eq_refl).
Defined.

(** One byte, ["wav/x"] negotiated, in a directory without [response.wav]:
    the name cannot be opened, and the exception leaves the handling. *)
Example unopenable_name_raises :
  let w := start (C := with_directories) 0%nat 0%nat in
  handle_binary (H := with_directories) (JStr "wav/x") [x01] w =
    (inl (OSError 2),
     @says with_directories w [ReceivedAudio 1; CouldNotDetermine (JStr "wav/x")]) /\
  session_ending (H := with_directories) (JStr "wav/x") (inr (Binary [x01])) = true /\
  stop (deliver (H := with_directories) (JStr "wav/x") [inr (Binary [x01])]
          (start_waiting (C := with_directories) 0%nat 0%nat)) = true.
Proof. cbv zeta. repeat split; vm_compute; reflexivity. Qed.

(** One byte, ["x/../notes.txt"] negotiated, in a directory with
    [response.x]: the chunk replaces the file [notes.txt]. *)
Example server_chosen_name_reaches_another_file :
  let w := with_files (H := with_directories) {["notes.txt" := [x02]]}
             (start_waiting (C := with_directories) 0%nat 0%nat) in
  let w' := deliver (H := with_directories) (JStr "x/../notes.txt")
              [inr (Binary [x01])] w in
  files w' !! "notes.txt" = Some [x01] /\
  session_file (H := with_directories) (JStr "x/../notes.txt") "notes.txt" = true.
Proof. cbv zeta. split; vm_compute; reflexivity. Qed.

(** The text [{"type":"ping"}]. *)
Lemma ping_only_prints :
  handle_text (H := collaborators) ping_text w0 =
    (inr tt,
     says w0 [UnknownMessageType (JStr "ping");
              FullMessage (JObj (list_to_map [("type", JStr "ping")]))]).
Proof.
  exact (object_text_only_prints (H := collaborators) ping_text
           (list_to_map [("type", JStr "ping")]) w0 eq_refl).
Defined.

(** The text [{}]. *)
Lemma empty_object_is_rendered_as_unknown :
  let w := start (C := with_more_texts) 0%nat 0%nat in
  handle_text (H := with_more_texts) "{}" w =
    (inr tt,
     @says with_more_texts w [UnknownMessageType JNull; FullMessage (JObj ∅)]).
Proof.
  apply (untyped_text_is_rendered_as_unknown (H := with_more_texts) "{}" ∅
           (start (C := with_more_texts) 0%nat 0%nat)).
  - reflexivity.
  - reflexivity.
Defined.

(** A transcription arrives after the flag has been set; the ping behind it
    is not read. *)
Lemma transcription_after_the_flag_is_rendered :
  exists w1,
    receive_iteration (H := collaborators) (JStr "opus") (inr (Text stt_text))
      (with_recv_task Waiting stopped) = (inr tt, w1) /\
    deliver (JStr "opus") [inr (Text stt_text); inr (Text ping_text)]
      (with_recv_task Waiting stopped) = with_recv_task Finished w1.
Proof.
  apply (cancellation_is_seen_after_one_more_message (H := collaborators)
           (JStr "opus") (inr (Text stt_text)) [inr (Text ping_text)] stopped).
  - reflexivity.
  - reflexivity.
Defined.

(** A text that is not JSON ends the loop; the transcriptions behind it and
    in the next turn are not read. *)
Lemma nothing_is_read_after_invalid_text :
  receive_messages (H := collaborators) (JStr "opus") [inr (Text stt_text)]
    (deliver (JStr "opus") [inr (Text "not json"); inr (Text stt_text)]
       (with_recv_task Waiting w0)) =
  deliver (JStr "opus") [inr (Text "not json")] (with_recv_task Waiting w0).
Proof.
  apply (nothing_is_read_after_the_loop_ends (H := collaborators) (JStr "opus")
           (inr (Text "not json")) [inr (Text stt_text)] [inr (Text stt_text)] w0).
  reflexivity.
Defined.

(** A text that is not JSON arrives during the first iteration of the
    capture loop. *)
Lemma invalid_text_ends_the_capture :
  exists w',
    capture (H := collaborators) (JStr "opus") (seconds (clock w0))
      (garbled_tick :: [steady_tick]) [] 0%float w0 = Some ([] ++ [[x01; x00]], w') /\
    stop w' = true /\ sent w' = sent w0.
Proof.
  apply (end_of_reception_ends_the_capture (H := collaborators) (JStr "opus")
           (seconds (clock w0)) garbled_tick [steady_tick] [] 0%float [x01; x00] false w0).
  - reflexivity.
  - vm_compute. reflexivity.
  - left. reflexivity.
  - reflexivity.
  - apply Exists_cons_tl, Exists_cons_hd. reflexivity.
Defined.

(** The microphone is unplugged after three frames, of which the second
    took 40 ms: the three are sent. *)
Lemma three_frames_survive_the_failure :
  let good := [steady_tick; slow_tick; steady_tick] in
  exists w',
    send_audio (H := collaborators) (JStr "mp3")
      (good ++ unplugged_tick :: [steady_tick])
      (λ _, quiet_step) w0 = Some (inr tt, w') /\
    stop w' = true /\
    sent w' = sent w0 ++ (Binary <$> encode_seq (encoder w0) (pcm_of <$> good)).
Proof.
  apply (microphone_failure_keeps_the_buffer (H := collaborators) (JStr "mp3")
           [steady_tick; slow_tick; steady_tick] unplugged_tick [steady_tick]
           (λ _, quiet_step) (PortAudioError (-9988)) w0).
  - reflexivity.
  - reflexivity.
  - repeat constructor; exists [x01; x00], false; reflexivity.
  - vm_compute. reflexivity.
  - reflexivity.
  - intros i. reflexivity.
  - reflexivity.
Defined.

(** The reply [{"type":"welcome","audio_format":"WAV"}] to a request for
    ["mp3"]. *)
Lemma welcome_is_accepted :
  let w := start (C := with_more_texts) 0%nat 0%nat in
  handshake (H := with_more_texts) "mp3" None (inr (Text welcome_reply_text)) w =
    (inr (JNull, JStr "WAV"),
     with_trace (H := with_more_texts)
       (trace w ++
        [WsSend (Text (@json_dumps with_more_texts (JObj (hello "mp3"))));
         Say (SentHello (JStr "mp3"))] ++
        [Say (UnexpectedResponseType (JStr "welcome"))] ++
        [Say (SessionId JNull); Say (ServerWillSend (JStr "WAV"))]) w).
Proof.
  exact (any_object_is_accepted_as_acknowledgment (H := with_more_texts) "mp3"
           (Text welcome_reply_text)
           (list_to_map [("type", JStr "welcome"); ("audio_format", JStr "WAV")])
           (start (C := with_more_texts) 0%nat 0%nat) eq_refl).
Defined.

(** The reply [{"type":"hello","session_id":"abc","audio_format":null}]. *)
Lemma null_encoding_ends_reception :
  exists session_id w',
    handshake (H := with_more_texts) "opus" None (inr (Text null_format_reply_text))
      (start (C := with_more_texts) 0%nat 0%nat) = (inr (session_id, JNull), w') /\
    forall message rest w0,
      let w1 := deliver (H := with_more_texts) JNull (inr (Binary message) :: rest)
                  (with_recv_task Waiting w0) in
      stop w1 = true /\ recv_task w1 = Finished.
Proof.
  apply (non_string_encoding_ends_reception (H := with_more_texts) "opus"
           (Text null_format_reply_text)
           (list_to_map [("type", JStr "hello"); ("session_id", JStr "abc");
                         ("audio_format", JNull)])
           JNull (start (C := with_more_texts) 0%nat 0%nat)).
  - reflexivity.
  - reflexivity.
  - intros s. discriminate.
Defined.

(** The reply [[1]], which is JSON but no object. *)
Lemma array_reply_aborts_the_session :
  exists e,
    robot_client (H := collaborators) "opus" None (inr (Text "[1]")) [steady_tick]
      (λ _, quiet_step) [] w0 =
      Some (inl e,
            with_trace
              (trace w0 ++
               [WsSend (Text (json_dumps (JObj (hello "opus"))));
                Say (SentHello (JStr "opus")); WsContextExit]) w0).
Proof.
  apply (bad_reply_aborts_the_session (H := collaborators) "opus" (Text "[1]")
           [steady_tick] (λ _, quiet_step) [] w0).
  vm_compute. exact I.
Defined.

(** A session on a machine without a microphone. *)
Lemma session_without_microphone :
  let w := start (C := no_microphone) 0%nat 0%nat in
  let w1 := (handshake (H := no_microphone) "opus" None
               (inr (Text hello_reply_text)) w).2 in
  exists w' t,
    robot_client (H := no_microphone) "opus" None (inr (Text hello_reply_text))
      [steady_tick] (λ _, quiet_step) [] w = Some (inl (PortAudioError (-9996)), w') /\
    trace w' = trace w1 ++ t ++ [WsContextExit] /\
    executions CloseChannel t = 0%nat /\
    executions AwaitReceiveTask t = 0%nat /\
    executions StopOutput t = 0%nat /\
    executions ReleaseOutput t = 0%nat.
Proof.
  apply (microphone_failure_skips_the_teardown (H := no_microphone) "opus" None
           (inr (Text hello_reply_text)) [steady_tick] (λ _, quiet_step) []
           (PortAudioError (-9996)) (JStr "abc") (JStr "opus")
           (start (C := no_microphone) 0%nat 0%nat)).
  - reflexivity.
  - reflexivity.
Defined.

(** The session of one long tick, in which a chunk with an ID3 tag arrives
    and the server then stays silent. *)
Let session : option (outcome unit * world (H := collaborators)) :=
  robot_client (H := collaborators) "mp3" None (inr (Text hello_reply_text))
    [long_tick] (λ _, quiet_step) [] (with_files {["notes.txt" := [x01]]} w0).

Let session_end : world (H := collaborators) :=
  match session with Some (_, w) => w | None => w0 end.

Lemma silent_server_still_gets_the_teardown :
  let w := with_files (H := collaborators) {["notes.txt" := [x01]]} w0 in
  let w1 := (handshake "mp3" None (inr (Text hello_reply_text)) w).2 in
  let w2 :=
    match send_audio (JStr "mp3") [long_tick] (λ _, quiet_step)
            (with_recv_task Fresh (with_stop false w1)) with
    | Some (_, x) => x
    | None => w1
    end in
  exists r w' before,
    robot_client "mp3" None (inr (Text hello_reply_text)) [long_tick]
      (λ _, quiet_step) [] w = Some (r, w') /\
    stop w' = true /\
    (recv_task w' = Finished \/ recv_task w' = Cancelled) /\
    trace w' = trace w2 ++ before ++ teardown_trace ++ [WsContextExit].
Proof.
  cbv zeta.
  eapply (recording_is_followed_by_the_teardown (H := collaborators) "mp3" None
            (inr (Text hello_reply_text)) [long_tick] (λ _, quiet_step) []
            (JStr "abc") (JStr "mp3")).
  - reflexivity.
  - vm_compute. reflexivity.
Defined.


Lemma session_leaves_the_notes_alone :
  files session_end !! "notes.txt" = Some [x01] /\
  files session_end !! "response.mp3" = Some (b_ID3 ++ [x01]).
Proof.
  split; [|vm_compute; reflexivity].
  rewrite (session_writes_only_its_files (H := collaborators) "mp3"
             (inr (Text hello_reply_text)) [long_tick] (λ _, quiet_step) [] (inr tt)
             "notes.txt" (with_files {["notes.txt" := [x01]]} w0) session_end).
  - reflexivity.
  - vm_compute. reflexivity.
  - reflexivity.
Defined.

(** The flag stays set through a transcription, a burst of one frame and
    the wait for the receive task. *)
Lemma flag_stays_set :
  stop (receive_messages (H := collaborators) (JStr "opus") [inr (Text stt_text)]
          stopped) = true /\
  stop (transmit (JStr "opus") (λ _, quiet_step) 0 [[x01; x00]] stopped) = true /\
  stop (await_recv (JStr "opus") [inr (Text stt_text)] stopped).2 = true.
Proof.
  apply (flag_is_never_cleared (H := collaborators) (JStr "opus")
           [inr (Text stt_text)] (λ _, quiet_step) [[x01; x00]] stopped).
  reflexivity.
Defined.

End FurtherRuns.
